(** * Shipping data processor (populate.py): a shallow embedding

    The program reads three tables of rows (the dictionaries produced by
    [csv.DictReader]), resolves product names to ids in a [product] table and
    appends rows to a [shipment] table of a SQLite database, all inside one
    transaction that is committed at the end or rolled back on any exception.

    Modelling choices:
    - a row is the dictionary of a complete line of the file, a finite map
      from the field names of the header to strings ([gmap string string]);
      [row['k']] raises [KeyError] when the header has no field [k] (a
      line with fewer cells than the header, which [csv.DictReader] fills
      with [None], is not a row of the model);
    - a string is a Python [str] of code points 0 to 255, character by
      character;
    - Python's [dict] and [defaultdict] keep insertion order, and the program
      iterates over them, so they are association lists updated in place;
    - Python integers are unbounded: [Z];
    - the cursor and the connection are global mutable state: every function
      that takes [cursor] is a computation in a state-and-exception monad
      whose state survives a raised exception (that is what makes the
      rollback in [main] necessary);
    - opening files and the database cannot fail in the model, and the
      database accepts every write the program issues: the range check of
      the sqlite3 binding on integers (signed 64 bits) is not modelled, and
      the theorems that say that a quantity read from a file is stored
      assume the quantity in that range ([int64]). *)

From Stdlib Require Import ZArith Ascii String.
From stdpp Require Import gmap strings list fin_maps pretty.

Local Open Scope string_scope.
Local Open Scope list_scope.

(** ** Exceptions and results *)

Inductive exception : Type :=
| KeyError (key : string)          (* row['key'] on a row without that key *)
| ValueError (message : string).   (* int(s) on a text that is no numeral *)

Inductive result (A : Type) : Type :=
| Ok (a : A)
| Raise (e : exception).
Arguments Ok {A} a.
Arguments Raise {A} e.

Definition result_bind {A B} (r : result A) (k : A -> result B) : result B :=
  match r with
  | Ok a => k a
  | Raise e => Raise e
  end.

Declare Scope result_scope.
Delimit Scope result_scope with result.
Notation "'let?' x := r 'in' k" := (result_bind r (fun x => k))
  (at level 10, x name, r at level 100, k at level 200) : result_scope.

#[global] Instance exception_eq_dec : EqDecision exception.
Proof. solve_decision. Defined.

(** ** Rows of [csv.DictReader] *)

Abbreviation row := (gmap string string).

(** [row[key]]: [KeyError] when the key is not in the dictionary *)
Definition getitem (r : row) (key : string) : result string :=
  match r !! key with
  | Some v => Ok v
  | None => Raise (KeyError key)
  end.

(** ** Python strings

    A [string] stands for the Python [str] with the same characters: the
    character of code [n] (0 to 255) is the code point [n].  This is the
    domain of the model: a [str] with a code point above 255 is not a
    value of it. *)

Definition double_quote : ascii := ascii_of_nat 34.
Definition single_quote : ascii := "'"%char.
Definition backslash : ascii := ascii_of_nat 92.

(** [repr(s)]: the text between single quotes, or between double quotes
    when it has a single quote and no double quote; the quote in use and
    the backslash are escaped, tab, newline and return are written [\t],
    [\n], [\r], and the other characters that are not printable (below 32,
    127 to 160, 173) are written [\xhh]. *)

Definition hex_digit (n : N) : ascii :=
  match n with
  | 0 => "0" | 1 => "1" | 2 => "2" | 3 => "3" | 4 => "4" | 5 => "5"
  | 6 => "6" | 7 => "7" | 8 => "8" | 9 => "9" | 10 => "a" | 11 => "b"
  | 12 => "c" | 13 => "d" | 14 => "e" | _ => "f"
  end%N%char.

Definition is_printable (c : ascii) : bool :=
  let n := N_of_ascii c in
  (((32 <=? n) && (n <=? 126)) || ((161 <=? n) && negb (n =? 173)))%N.

Definition repr_char (quote c : ascii) : list ascii :=
  let n := N_of_ascii c in
  if Ascii.eqb c quote || Ascii.eqb c backslash then [backslash; c]
  else if (n =? 9)%N then [backslash; "t"%char]
  else if (n =? 10)%N then [backslash; "n"%char]
  else if (n =? 13)%N then [backslash; "r"%char]
  else if is_printable c then [c]
  else [backslash; "x"%char; hex_digit (n / 16); hex_digit (n mod 16)].

Definition repr_quote (s : list ascii) : ascii :=
  if existsb (Ascii.eqb single_quote) s && negb (existsb (Ascii.eqb double_quote) s)
  then double_quote else single_quote.

Definition repr (s : string) : string :=
  let chars := list_ascii_of_string s in
  let quote := repr_quote chars in
  string_of_list_ascii (quote :: (chars ≫= repr_char quote) ++ [quote]).

(** ** [int(s)] on a string, base 10

    Leading and trailing white space is skipped, one sign is allowed, then
    come decimal digits with single underscores between digits.  The white
    space characters are 9 to 13, 32, 133 and 160; the digits are 48 to 57.
    A numeral of more than 4300 digits is refused (the default of
    [sys.int_max_str_digits]), after the underscores have been checked and
    before what follows the digits is looked at. *)

Definition is_space (c : ascii) : bool :=
  let n := N_of_ascii c in
  (((9 <=? n) && (n <=? 13)) || (n =? 32) || (n =? 133) || (n =? 160))%N.

Definition digit_of (c : ascii) : option Z :=
  let n := Z.of_N (N_of_ascii c) in
  if ((48 <=? n) && (n <=? 57))%Z then Some (n - 48)%Z else None.

Fixpoint skip_spaces (s : list ascii) : list ascii :=
  match s with
  | c :: s' => if is_space c then skip_spaces s' else s
  | [] => []
  end.

(** The digits and underscores from the second character on: the value,
    the number of digits and what follows them, or [None] when an
    underscore is not followed by a digit. *)
Fixpoint int_digits (acc : Z) (n : nat) (s : list ascii)
  : option (Z * nat * list ascii) :=
  match s with
  | [] => Some (acc, n, [])
  | c :: s' =>
      match digit_of c with
      | Some d => int_digits (10 * acc + d)%Z (S n) s'
      | None =>
          if Ascii.eqb c "_"%char then
            match s' with
            | c' :: s'' =>
                match digit_of c' with
                | Some d => int_digits (10 * acc + d)%Z (S n) s''
                | None => None
                end
            | [] => None
            end
          else Some (acc, n, s)
      end
  end.

Inductive int_outcome : Type :=
| Invalid                  (* invalid literal *)
| TooLong (digits : nat)   (* more digits than the limit *)
| Value (z : Z).

Definition int_max_str_digits : nat := 4300.

Definition int_unsigned (negative : bool) (s : list ascii) : int_outcome :=
  match s with
  | c :: s' =>
      match digit_of c with
      | Some d =>
          match int_digits d 1 s' with
          | Some (z, n, rest) =>
              if (int_max_str_digits <? n)%nat then TooLong n
              else if forallb is_space rest
                   then Value (if negative then - z else z)%Z
                   else Invalid
          | None => Invalid
          end
      | None => Invalid
      end
  | [] => Invalid
  end.

Definition int_literal (s : list ascii) : int_outcome :=
  match skip_spaces s with
  | "+"%char :: s' => int_unsigned false s'
  | "-"%char :: s' => int_unsigned true s'
  | s' => int_unsigned false s'
  end.

(** [int(s)]; the message of the first error shows at most 200 characters
    of [repr(s)]. *)
Definition int (s : string) : result Z :=
  match int_literal (list_ascii_of_string s) with
  | Value z => Ok z
  | Invalid =>
      Raise (ValueError ("invalid literal for int() with base 10: "
                           +:+ substring 0 200 (repr s)))
  | TooLong digits =>
      Raise (ValueError ("Exceeds the limit (4300 digits) for integer string "
                           +:+ "conversion: value has " +:+ pretty digits
                           +:+ " digits; use sys.set_int_max_str_digits() "
                           +:+ "to increase the limit"))
  end.

(** ** Python dictionaries

    A [dict] keeps its keys in the order of their first insertion; assigning
    to a key that is present replaces the value where it stands. *)

Section Dict.
Context {K V : Type} `{EqDecision K}.

(** [d.get(k)], and [k in d] when the answer is [Some _] *)
Fixpoint dict_get (k : K) (d : list (K * V)) : option V :=
  match d with
  | [] => None
  | (k', v) :: d' => if decide (k' = k) then Some v else dict_get k d'
  end.

(** [d[k] = v] *)
Fixpoint dict_set (k : K) (v : V) (d : list (K * V)) : list (K * V) :=
  match d with
  | [] => [(k, v)]
  | (k', v') :: d' =>
      if decide (k' = k) then (k', v) :: d' else (k', v') :: dict_set k v d'
  end.
End Dict.

(** ** The database and the state of a run *)

Record product_row : Type := ProductRow { p_id : Z; p_name : string }.

Record shipment_row : Type := ShipmentRow {
  product_id : Z;
  quantity : Z;
  origin : string;
  destination : string
}.

Record database : Type := Database {
  product : list product_row;
  shipment : list shipment_row
}.

(** [committed] is what the database file holds, [pending] is what the open
    connection sees (the file plus the writes of the open transaction),
    [stdout] the lines printed so far. *)
Record state : Type := State {
  committed : database;
  pending : database;
  stdout : list string
}.

#[global] Instance product_row_eq_dec : EqDecision product_row.
Proof. solve_decision. Defined.
#[global] Instance shipment_row_eq_dec : EqDecision shipment_row.
Proof. solve_decision. Defined.
#[global] Instance database_eq_dec : EqDecision database.
Proof. solve_decision. Defined.

(** Computations over the state that may raise.  The state reached when an
    exception is raised is kept: writes made before it are still pending. *)
Definition M (A : Type) : Type := state -> state * result A.

Definition ret {A} (a : A) : M A := fun st => (st, Ok a).

Definition bind {A B} (c : M A) (k : A -> M B) : M B :=
  fun st =>
    match c st with
    | (st', Ok a) => k a st'
    | (st', Raise e) => (st', Raise e)
    end.

Definition lift {A} (r : result A) : M A := fun st => (st, r).

Notation "x <~ c ;; k" := (bind c (fun x => k))
  (at level 100, c at next level, right associativity).
Notation "c ;;; k" := (bind c (fun _ => k))
  (at level 100, right associativity).

(** [for x in l: body(x)] *)
Fixpoint for_each {A} (body : A -> M unit) (l : list A) : M unit :=
  match l with
  | [] => ret tt
  | x :: l' => body x ;;; for_each body l'
  end.

(** [print(line)] *)
Definition print (line : string) : M unit :=
  fun st => (State (committed st) (pending st) (stdout st ++ [line]), Ok tt).

(** [SELECT id FROM product WHERE name = ?] followed by [fetchone()] *)
Fixpoint select_id (name : string) (tbl : list product_row) : option Z :=
  match tbl with
  | [] => None
  | r :: tbl' => if decide (p_name r = name) then Some (p_id r) else select_id name tbl'
  end.

(** Modelled from the spec: the declaration of the [product] table is not in
    the source; its [id] is an integer primary key, which SQLite assigns as
    one more than the largest id in the table, and 1 in an empty table
    (with the largest 64-bit id in the table SQLite takes an unused id
    instead; the theorems only use that the new id is not in the table). *)
Definition next_rowid (tbl : list product_row) : Z :=
  match map p_id tbl with
  | [] => 1
  | i :: ids => 1 + foldr Z.max i ids
  end%Z.

Definition execute_select_id (name : string) : M (option Z) :=
  fun st => (st, Ok (select_id name (product (pending st)))).

(** [INSERT INTO product (name) VALUES (?)]; the value is [cursor.lastrowid] *)
Definition execute_insert_product (name : string) : M Z :=
  fun st =>
    let db := pending st in
    let i := next_rowid (product db) in
    (State (committed st)
           (Database (product db ++ [ProductRow i name]) (shipment db))
           (stdout st),
     Ok i).

(** [INSERT INTO shipment (product_id, quantity, origin, destination)
     VALUES (?, ?, ?, ?)] *)
Definition execute_insert_shipment (r : shipment_row) : M unit :=
  fun st =>
    let db := pending st in
    (State (committed st) (Database (product db) (shipment db ++ [r])) (stdout st),
     Ok tt).

(** ** The functions of populate.py *)

Definition get_or_create_product (product_name : string) : M Z :=
  result <~ execute_select_id product_name ;;
  match result with
  | Some i => ret i
  | None => execute_insert_product product_name
  end.

Definition insert_shipment (product_id quantity : Z) (origin destination : string)
  : M unit :=
  execute_insert_shipment (ShipmentRow product_id quantity origin destination).

(** The canonical tuple read from a row of shipping_data_0 (the four
    assignments that open the loop body of [process_shipping_data_0]). *)
Record canonical : Type := Canonical {
  c_product_name : string;
  c_quantity : Z;
  c_origin : string;
  c_destination : string
}.

Definition row_0_fields (r : row) : result canonical :=
  (let? product_name := getitem r "product" in
   let? text := getitem r "product_quantity" in
   let? quantity := int text in
   let? origin := getitem r "origin_warehouse" in
   let? destination := getitem r "destination_store" in
   Ok (Canonical product_name quantity origin destination))%result.

Definition process_shipping_data_0 (rows : list row) : M unit :=
  for_each (fun r =>
    c <~ lift (row_0_fields r) ;;
    product_id <~ get_or_create_product (c_product_name c) ;;
    insert_shipment product_id (c_quantity c) (c_origin c) (c_destination c))
  rows.

(** The values of the [shipment_info] dictionary, [{'origin': _, 'destination': _}] *)
Record info : Type := Info { info_origin : string; info_destination : string }.

(** First loop of [process_shipping_data_1_and_2]: shipping_data_2 *)
Fixpoint load_shipment_info (rows : list row) (shipment_info : list (string * info))
  : result (list (string * info)) :=
  match rows with
  | [] => Ok shipment_info
  | r :: rows' =>
      (let? shipment_id := getitem r "shipment_identifier" in
       let? o := getitem r "origin_warehouse" in
       let? d := getitem r "destination_store" in
       load_shipment_info rows' (dict_set shipment_id (Info o d) shipment_info))%result
  end.

(** [product_counts[shipment_id][product_name] += 1] on a
    [defaultdict(lambda: defaultdict(int))] *)
Definition increment (shipment_id product_name : string)
    (product_counts : list (string * list (string * Z)))
  : list (string * list (string * Z)) :=
  let products := default [] (dict_get shipment_id product_counts) in
  let n := default 0%Z (dict_get product_name products) in
  dict_set shipment_id (dict_set product_name (n + 1)%Z products) product_counts.

(** Second loop: shipping_data_1 *)
Fixpoint count_products (rows : list row)
    (product_counts : list (string * list (string * Z)))
  : result (list (string * list (string * Z))) :=
  match rows with
  | [] => Ok product_counts
  | r :: rows' =>
      (let? shipment_id := getitem r "shipment_identifier" in
       let? product_name := getitem r "product" in
       count_products rows' (increment shipment_id product_name product_counts))%result
  end.

Definition warning (shipment_id : string) : string :=
  "Warning: No origin/destination found for shipment " +:+ shipment_id.

(** Third loop: one shipment per (shipment_id, product) *)
Definition insert_products (origin destination : string)
    (products : list (string * Z)) : M unit :=
  for_each (fun '(product_name, quantity) =>
    product_id <~ get_or_create_product product_name ;;
    insert_shipment product_id quantity origin destination)
  products.

Definition insert_records (shipment_info : list (string * info))
    (product_counts : list (string * list (string * Z))) : M unit :=
  for_each (fun '(shipment_id, products) =>
    match dict_get shipment_id shipment_info with
    | None => print (warning shipment_id)
    | Some i => insert_products (info_origin i) (info_destination i) products
    end)
  product_counts.

Definition process_shipping_data_1_and_2 (rows_1 rows_2 : list row) : M unit :=
  shipment_info <~ lift (load_shipment_info rows_2 []) ;;
  product_counts <~ lift (count_products rows_1 []) ;;
  insert_records shipment_info product_counts.

(** [main]: the connection is opened on the database file, the two
    families are processed inside [try], the transaction is committed, and
    the summary is printed; any exception rolls the transaction back, is
    reported and raised again; the connection is closed on every path. *)

Definition raise {A} (e : exception) : M A := fun st => (st, Raise e).

Definition try_except {A} (body : M A) (handler : exception -> M A) : M A :=
  fun st =>
    match body st with
    | (st', Ok a) => (st', Ok a)
    | (st', Raise e) => handler e st'
    end.

Definition try_finally {A} (body : M A) (final : M unit) : M A :=
  fun st =>
    match body st with
    | (st', r) =>
        match final st' with
        | (st'', Ok _) => (st'', r)
        | (st'', Raise e) => (st'', Raise e)
        end
    end.

(** [sqlite3.connect]: nothing is pending on a fresh connection *)
Definition connect (file : database) : state := State file file [].

(** [conn.commit()] *)
Definition commit : M unit :=
  fun st => (State (pending st) (pending st) (stdout st), Ok tt).

(** [conn.rollback()] *)
Definition rollback : M unit :=
  fun st => (State (committed st) (committed st) (stdout st), Ok tt).

(** [conn.close()]: what was not committed is dropped *)
Definition close : M unit :=
  fun st => (State (committed st) (committed st) (stdout st), Ok tt).

(** [SELECT COUNT( * ) FROM product] and [... FROM shipment] *)
Definition count_product : M nat := fun st => (st, Ok (length (product (pending st)))).
Definition count_shipment : M nat := fun st => (st, Ok (length (shipment (pending st)))).

(** [str(e)] *)
Definition str (e : exception) : string :=
  match e with
  | KeyError key => repr key
  | ValueError message => message
  end.

Definition newline : string := String (ascii_of_nat 10) "".

Definition main_try (rows_0 rows_1 rows_2 : list row) : M unit :=
  print "Processing shipping_data_0.csv..." ;;;
  process_shipping_data_0 rows_0 ;;;
  print "Processing shipping_data_1.csv with shipping_data_2.csv..." ;;;
  process_shipping_data_1_and_2 rows_1 rows_2 ;;;
  commit ;;;
  print "Database populated successfully!" ;;;
  product_count <~ count_product ;;
  shipment_count <~ count_shipment ;;
  print (newline +:+ "Summary:") ;;;
  print ("  - Total products: " +:+ pretty product_count) ;;;
  print ("  - Total shipments: " +:+ pretty shipment_count).

Definition main_except (e : exception) : M unit :=
  rollback ;;;
  print ("Error: " +:+ str e) ;;;
  raise e.

Definition main (rows_0 rows_1 rows_2 : list row) (file : database)
  : state * result unit :=
  try_finally
    (try_except (main_try rows_0 rows_1 rows_2) main_except)
    close
    (connect file).

(** ** Test data: the two scenarios of the specification *)

Definition row_of (fields : list (string * string)) : row := list_to_map fields.

Definition widget_row : row :=
  row_of [("origin_warehouse", "W1"); ("destination_store", "S1");
          ("product", "Widget"); ("on_time", "true");
          ("product_quantity", "5"); ("driver_identifier", "D1")].

Definition fact (shipment_id product_name : string) : row :=
  row_of [("shipment_identifier", shipment_id); ("product", product_name);
          ("on_time", "true")].

Definition location (shipment_id o d : string) : row :=
  row_of [("shipment_identifier", shipment_id); ("origin_warehouse", o);
          ("destination_store", d); ("driver_identifier", "D1")].

Definition empty_db : database := Database [] [].


(** ** Notions used in the statements *)

(** The fact row [r] is one unit of [product_name] in shipment [shipment_id]. *)
Definition carries (shipment_id product_name : string) (r : row) : Prop :=
  r !! "shipment_identifier" = Some shipment_id /\ r !! "product" = Some product_name.

#[global] Instance carries_dec shipment_id product_name r :
  Decision (carries shipment_id product_name r).
Proof. unfold carries. apply _. Defined.

(** Number of fact rows carrying the pair. *)
Definition occurrences (shipment_id product_name : string) (rows : list row) : Z :=
  Z.of_nat (length (filter (carries shipment_id product_name) rows)).

(** The location row [r] gives [o] and [d] for [shipment_id]. *)
Definition locates (shipment_id o d : string) (r : row) : Prop :=
  r !! "shipment_identifier" = Some shipment_id /\
  r !! "origin_warehouse" = Some o /\
  r !! "destination_store" = Some d.

(** [product_counts[shipment_id][product_name]], without creating it *)
Definition entry (shipment_id product_name : string)
    (product_counts : list (string * list (string * Z))) : option Z :=
  match dict_get shipment_id product_counts with
  | Some products => dict_get product_name products
  | None => None
  end.

(** The triples (shipment_id, product_name, quantity) that the two nested
    loops over [product_counts.items()] and [products.items()] go through. *)
Definition entries (product_counts : list (string * list (string * Z)))
  : list (string * string * Z) :=
  product_counts ≫= fun '(shipment_id, products) =>
    (fun '(product_name, quantity) => (shipment_id, product_name, quantity)) <$> products.

(** The canonical tuples the third loop passes to [get_or_create_product]
    and [insert_shipment] for one item of [product_counts], and for all. *)
Definition emit (shipment_info : list (string * info))
    (item : string * list (string * Z)) : list canonical :=
  match dict_get item.1 shipment_info with
  | None => []
  | Some i =>
      (fun '(product_name, quantity) =>
         Canonical product_name quantity (info_origin i) (info_destination i))
      <$> item.2
  end.

Definition emitted (shipment_info : list (string * info))
    (product_counts : list (string * list (string * Z))) : list canonical :=
  product_counts ≫= emit shipment_info.

(** The shipment identifiers the third loop warns about, in order. *)
Definition missing (shipment_info : list (string * info))
    (product_counts : list (string * list (string * Z))) : list string :=
  filter (fun shipment_id => dict_get shipment_id shipment_info = None)
         product_counts.*1.

(** The database after [get_or_create_product] and [insert_shipment] on one
    canonical tuple, and on a list of them. *)
Definition store (db : database) (c : canonical) : database :=
  match select_id (c_product_name c) (product db) with
  | Some i =>
      Database (product db)
               (shipment db ++ [ShipmentRow i (c_quantity c) (c_origin c) (c_destination c)])
  | None =>
      let i := next_rowid (product db) in
      Database (product db ++ [ProductRow i (c_product_name c)])
               (shipment db ++ [ShipmentRow i (c_quantity c) (c_origin c) (c_destination c)])
  end.

Definition store_all (cs : list canonical) (db : database) : database :=
  foldl store db cs.

(** The shipment row of a canonical tuple, its product looked up in [tbl]. *)
Definition resolve (tbl : list product_row) (c : canonical) : shipment_row :=
  ShipmentRow (default 0%Z (select_id (c_product_name c) tbl))
              (c_quantity c) (c_origin c) (c_destination c).

(** The rows of shipping_data_0 read before the first malformed one, and
    the exception that one raises. *)
Fixpoint read_rows_0 (rows : list row) : list canonical * option exception :=
  match rows with
  | [] => ([], None)
  | r :: rows' =>
      match row_0_fields r with
      | Ok c => let '(cs, e) := read_rows_0 rows' in (c :: cs, e)
      | Raise e => ([], Some e)
      end
  end.

(** The keys of [product_counts] and of each of its values are distinct. *)
Definition counts_wf (product_counts : list (string * list (string * Z))) : Prop :=
  NoDup product_counts.*1 /\ Forall (fun item => NoDup item.2.*1) product_counts.

Definition fields_1 : list string := ["shipment_identifier"; "product"].
Definition fields_2 : list string :=
  ["shipment_identifier"; "origin_warehouse"; "destination_store"].

(** The row has every field of [keys] (each is a key of the dictionary,
    with a string as value); the row lacks one of them (it is not a key of
    the dictionary). *)
Definition has_fields (keys : list string) (r : row) : Prop :=
  Forall (fun key => is_Some (r !! key)) keys.
Definition lacks_field (keys : list string) (r : row) : Prop :=
  Exists (fun key => r !! key = None) keys.

(** The row of shipping_data_0 has the four fields, with a numeral for the
    quantity, and [c] is what they say. *)
Definition well_formed_0 (r : row) (c : canonical) : Prop :=
  r !! "product" = Some (c_product_name c) /\
  (exists text, r !! "product_quantity" = Some text /\ int text = Ok (c_quantity c)) /\
  r !! "origin_warehouse" = Some (c_origin c) /\
  r !! "destination_store" = Some (c_destination c).

(** The numerals of [int()], after the Python reference: white space, an
    optional sign, a digit followed by digits each of which one underscore
    may precede, white space; at most 4300 digits.  [decimal] is the value
    of a list of digits, most significant first. *)
Definition space_codes : list nat := [9; 10; 11; 12; 13; 32; 133; 160]%nat.

Definition white_space (c : ascii) : Prop := nat_of_ascii c ∈ space_codes.

Definition digit_char (d : Z) : ascii := ascii_of_nat (48 + Z.to_nat d).

(** The text of the digits after the first. *)
Definition more_chars (more : list (bool * Z)) : list ascii :=
  more ≫= fun '(underscore, d) =>
            if underscore : bool then ["_"%char; digit_char d] else [digit_char d].

Definition digitpart (d0 : Z) (more : list (bool * Z)) : list ascii :=
  digit_char d0 :: more_chars more.

Definition decimal (ds : list Z) : Z := foldl (fun acc d => 10 * acc + d)%Z 0%Z ds.

Definition numeral (text : string) (z : Z) : Prop :=
  exists lead sgn d0 more trail,
    list_ascii_of_string text = lead ++ sgn ++ digitpart d0 more ++ trail /\
    Forall white_space lead /\ Forall white_space trail /\
    Forall (fun d => 0 <= d <= 9)%Z (d0 :: more.*2) /\
    (S (length more) <= 4300)%nat /\
    (sgn = [] /\ z = decimal (d0 :: more.*2) \/
     sgn = ["+"%char] /\ z = decimal (d0 :: more.*2) \/
     sgn = ["-"%char] /\ z = (- decimal (d0 :: more.*2))%Z).

(** The integers that sqlite3 binds: signed, 64 bits. *)
Definition int64 (q : Z) : Prop := (- 2 ^ 63 <= q < 2 ^ 63)%Z.

(** Counting one more row keeps the shipments, and the products of each
    shipment, in the order they have, and may add one at the end. *)
Definition counts_extend (pc pc' : list (string * list (string * Z))) : Prop :=
  pc.*1 `prefix_of` pc'.*1 /\
  forall s products,
    dict_get s pc = Some products ->
    exists products', dict_get s pc' = Some products' /\
                      products.*1 `prefix_of` products'.*1.

(** ** Tactics for closed goals *)

(** Closed goals [Forall (has_fields keys) rows] on concrete rows. *)
Ltac solve_fields :=
  repeat apply Forall_cons_2; try apply Forall_nil_2;
  vm_compute; eexists; reflexivity.

(** Closed goals [Forall (fun c => int64 (c_quantity c)) cs] on concrete
    tuples. *)
Ltac solve_int64 :=
  repeat apply Forall_cons_2; try apply Forall_nil_2;
  (split; [vm_compute; discriminate | vm_compute; reflexivity]).

(** Closed goals [x ∈ l] on a concrete list. *)
Ltac solve_elem :=
  repeat first [apply list_elem_of_here | apply list_elem_of_further].

(** ** Dictionaries *)

Section DictFacts.
Context {K V : Type} `{EqDecision K}.
Implicit Types (d : list (K * V)) (k : K) (v : V).

Lemma dict_get_set_eq k v d : dict_get k (dict_set k v d) = Some v.
Proof.
  induction d as [|[k' v'] d IH]; simpl.
  - by rewrite decide_True.
  - destruct (decide (k' = k)) as [->|Hne]; simpl.
    + by rewrite decide_True.
    + by rewrite decide_False.
Qed.

Lemma dict_get_set_ne k k' v d :
  k ≠ k' -> dict_get k' (dict_set k v d) = dict_get k' d.
Proof.
  intros Hne. induction d as [|[k0 v0] d IH]; simpl.
  - by rewrite decide_False.
  - destruct (decide (k0 = k)) as [->|Hne0]; simpl.
    + by rewrite !decide_False.
    + by rewrite IH.
Qed.

Lemma dict_get_None k d : dict_get k d = None <-> k ∉ d.*1.
Proof.
  induction d as [|[k0 v0] d IH]; simpl.
  - split; [intros _; apply not_elem_of_nil | done].
  - rewrite not_elem_of_cons. destruct (decide (k0 = k)) as [->|Hne].
    + split; [done | intros [? _]; done].
    + rewrite IH. split; [intros ?; split; [congruence | done] | intros [_ ?]; done].
Qed.

Lemma dict_get_Some_elem k v d : dict_get k d = Some v -> (k, v) ∈ d.
Proof.
  induction d as [|[k0 v0] d IH]; simpl; [done |].
  destruct (decide (k0 = k)) as [->|Hne].
  - intros [= ->]. apply list_elem_of_here.
  - intros Hg. apply list_elem_of_further, IH, Hg.
Qed.

Lemma dict_elem_get k v d : NoDup d.*1 -> (k, v) ∈ d -> dict_get k d = Some v.
Proof.
  induction d as [|[k0 v0] d IH]; simpl.
  - intros _ Hin. by apply elem_of_nil in Hin.
  - rewrite NoDup_cons. intros [Hk0 Hnd] Hin.
    apply elem_of_cons in Hin as [[= -> ->]|Hin].
    + by rewrite decide_True.
    + destruct (decide (k0 = k)) as [->|Hne]; [| by apply IH].
      exfalso. apply Hk0. apply list_elem_of_fmap. by exists (k, v).
Qed.

Lemma dict_get_split k v d :
  dict_get k d = Some v ->
  exists pre post, d = pre ++ (k, v) :: post /\ k ∉ pre.*1.
Proof.
  induction d as [|[k0 v0] d IH]; simpl; [done |].
  destruct (decide (k0 = k)) as [->|Hne].
  - intros [= ->]. exists [], d. split; [done | apply not_elem_of_nil].
  - intros Hg. destruct (IH Hg) as (pre & post & -> & Hpre).
    exists ((k0, v0) :: pre), post. split; [done |].
    simpl. rewrite not_elem_of_cons. split; [congruence | done].
Qed.

Lemma dict_set_keys k v d :
  (dict_set k v d).*1 = match dict_get k d with
                        | Some _ => d.*1
                        | None => d.*1 ++ [k]
                        end.
Proof.
  induction d as [|[k0 v0] d IH]; csimpl; [done |].
  destruct (decide (k0 = k)) as [->|Hne]; csimpl; [done |].
  rewrite IH. by destruct (dict_get k d).
Qed.

Lemma dict_set_NoDup k v d : NoDup d.*1 -> NoDup (dict_set k v d).*1.
Proof.
  intros Hnd. rewrite dict_set_keys.
  destruct (dict_get k d) eqn:Hg; [done |].
  apply NoDup_app. split; [done |]. split; [| apply NoDup_singleton].
  intros x Hx Hx'. apply list_elem_of_singleton in Hx' as ->.
  by apply dict_get_None in Hg.
Qed.
End DictFacts.

(** ** [int] accepts the numerals, and nothing else *)

Lemma is_space_white_space c : is_space c = bool_decide (white_space c).
Proof.
  destruct c as [b0 b1 b2 b3 b4 b5 b6 b7].
  destruct b0, b1, b2, b3, b4, b5, b6, b7; vm_compute; reflexivity.
Qed.

Lemma is_space_true c : is_space c = true <-> white_space c.
Proof. rewrite is_space_white_space. apply bool_decide_eq_true. Qed.

Lemma is_space_not_numeric c :
  is_space c = true ->
  digit_of c = None /\ Ascii.eqb c "_" = false /\
  Ascii.eqb c "+" = false /\ Ascii.eqb c "-" = false.
Proof.
  destruct c as [b0 b1 b2 b3 b4 b5 b6 b7].
  destruct b0, b1, b2, b3, b4, b5, b6, b7; vm_compute; intros H;
    first [discriminate H | repeat split].
Qed.

Lemma digit_of_Some c d :
  digit_of c = Some d -> (0 <= d <= 9)%Z /\ c = digit_char d.
Proof.
  unfold digit_of, digit_char.
  destruct (_ && _) eqn:Hc; [| done]. intros [= <-].
  apply andb_true_iff in Hc as [H1 H2].
  apply Z.leb_le in H1. apply Z.leb_le in H2. split; [lia |].
  rewrite <- (ascii_N_embedding c) at 1.
  unfold ascii_of_nat. f_equal. lia.
Qed.

Lemma digit_char_facts d :
  (0 <= d <= 9)%Z ->
  digit_of (digit_char d) = Some d /\ is_space (digit_char d) = false /\
  Ascii.eqb (digit_char d) "+" = false /\ Ascii.eqb (digit_char d) "-" = false.
Proof.
  intros Hd.
  assert (d = 0 \/ d = 1 \/ d = 2 \/ d = 3 \/ d = 4 \/ d = 5 \/ d = 6 \/ d = 7
          \/ d = 8 \/ d = 9)%Z as Hcases by lia.
  repeat (destruct Hcases as [->|Hcases]; [by vm_compute |]). subst. by vm_compute.
Qed.

Lemma skip_spaces_app lead s :
  Forall white_space lead -> skip_spaces (lead ++ s) = skip_spaces s.
Proof.
  induction 1 as [|c lead Hc _ IH]; [done |].
  simpl. apply is_space_true in Hc. by rewrite Hc.
Qed.

Lemma skip_spaces_sound s :
  exists lead, s = lead ++ skip_spaces s /\ Forall white_space lead.
Proof.
  induction s as [|c s (lead & Hs & Hlead)]; simpl.
  - exists []. split; [done | apply Forall_nil_2].
  - destruct (is_space c) eqn:Hc.
    + exists (c :: lead). split; [simpl; congruence |].
      apply Forall_cons_2; [by apply is_space_true | done].
    + exists []. split; [done | apply Forall_nil_2].
Qed.

Lemma int_literal_eq s :
  int_literal s
  = match skip_spaces s with
    | c :: s' =>
        if Ascii.eqb c "+" then int_unsigned false s'
        else if Ascii.eqb c "-" then int_unsigned true s'
        else int_unsigned false (c :: s')
    | [] => Invalid
    end.
Proof.
  unfold int_literal. destruct (skip_spaces s) as [|c s']; [done |].
  destruct c as [b0 b1 b2 b3 b4 b5 b6 b7].
  destruct b0, b1, b2, b3, b4, b5, b6, b7; reflexivity.
Qed.

Lemma int_digits_digit c d acc n s :
  digit_of c = Some d ->
  int_digits acc n (c :: s) = int_digits (10 * acc + d)%Z (S n) s.
Proof. intros Hc. simpl. by rewrite Hc. Qed.

Lemma int_digits_underscore c d acc n s :
  digit_of c = Some d ->
  int_digits acc n ("_"%char :: c :: s) = int_digits (10 * acc + d)%Z (S n) s.
Proof. intros Hc. simpl. by rewrite Hc. Qed.

Lemma int_digits_complete more acc n trail :
  Forall (fun d => 0 <= d <= 9)%Z more.*2 ->
  Forall white_space trail ->
  int_digits acc n (more_chars more ++ trail)
  = Some (foldl (fun a d => 10 * a + d)%Z acc more.*2, (n + length more)%nat, trail).
Proof.
  intros Hmore Htrail. revert acc n Hmore.
  induction more as [|[u d] more IH]; intros acc n Hmore.
  - simpl. rewrite Nat.add_0_r. destruct Htrail as [|c trail Hc _]; [done |].
    simpl. apply is_space_true, is_space_not_numeric in Hc as (-> & -> & _). done.
  - apply Forall_cons in Hmore as [Hd Hmore].
    destruct (digit_char_facts d Hd) as (Hdig & _).
    change (more_chars ((u, d) :: more))
      with ((if u then ["_"%char; digit_char d] else [digit_char d]) ++ more_chars more).
    destruct u; cbn [app].
    + rewrite (int_digits_underscore _ _ _ _ _ Hdig), (IH _ _ Hmore).
      cbn [fmap list_fmap snd foldl length]. do 2 f_equal. f_equal. lia.
    + rewrite (int_digits_digit _ _ _ _ _ Hdig), (IH _ _ Hmore).
      cbn [fmap list_fmap snd foldl length]. do 2 f_equal. f_equal. lia.
Qed.

Lemma int_digits_sound s : forall acc n z m rest,
  int_digits acc n s = Some (z, m, rest) ->
  exists more,
    s = more_chars more ++ rest /\
    Forall (fun d => 0 <= d <= 9)%Z more.*2 /\
    z = foldl (fun a d => 10 * a + d)%Z acc more.*2 /\
    m = (n + length more)%nat.
Proof.
  induction s as [s IH] using (induction_ltof1 _ (@length ascii)).
  unfold ltof in IH. intros acc n z m rest.
  destruct s as [|c s']; simpl.
  - intros [= <- <- <-]. exists []. rewrite Nat.add_0_r. by repeat split.
  - destruct (digit_of c) as [d|] eqn:Hc.
    + intros Hs. apply digit_of_Some in Hc as [Hd ->].
      destruct (IH s' ltac:(simpl; lia) _ _ _ _ _ Hs) as (more & -> & Hmore & -> & ->).
      exists ((false, d) :: more). split; [done |].
      split; [by apply Forall_cons_2 |]. split; [done |]. simpl. lia.
    + destruct (Ascii.eqb c "_") eqn:Hu.
      * apply Ascii.eqb_eq in Hu as ->.
        destruct s' as [|c' s'']; [done |].
        destruct (digit_of c') as [d|] eqn:Hc'; [| done].
        intros Hs. apply digit_of_Some in Hc' as [Hd ->].
        destruct (IH s'' ltac:(simpl; lia) _ _ _ _ _ Hs)
          as (more & -> & Hmore & -> & ->).
        exists ((true, d) :: more). split; [done |].
        split; [by apply Forall_cons_2 |]. split; [done |]. simpl. lia.
      * intros [= <- <- <-]. exists []. rewrite Nat.add_0_r. by repeat split.
Qed.

Lemma int_unsigned_cons negative c d s :
  digit_of c = Some d ->
  int_unsigned negative (c :: s)
  = match int_digits d 1 s with
    | Some (z, n, rest) =>
        if (int_max_str_digits <? n)%nat then TooLong n
        else if forallb is_space rest
             then Value (if negative then - z else z)%Z
             else Invalid
    | None => Invalid
    end.
Proof. intros Hc. unfold int_unsigned. by rewrite Hc. Qed.

Lemma decimal_cons d0 ds :
  decimal (d0 :: ds) = foldl (fun a d => 10 * a + d)%Z d0 ds.
Proof. unfold decimal. cbn [foldl]. by rewrite Z.mul_0_r, Z.add_0_l. Qed.

Lemma int_unsigned_complete negative d0 more trail :
  Forall (fun d => 0 <= d <= 9)%Z (d0 :: more.*2) ->
  (S (length more) <= 4300)%nat ->
  Forall white_space trail ->
  int_unsigned negative (digitpart d0 more ++ trail)
  = Value (if negative then - decimal (d0 :: more.*2) else decimal (d0 :: more.*2))%Z.
Proof.
  intros Hds Hlen Htrail. apply Forall_cons in Hds as [Hd0 Hmore].
  destruct (digit_char_facts d0 Hd0) as (Hdig & _).
  unfold digitpart. rewrite <- app_comm_cons.
  rewrite (int_unsigned_cons _ _ _ _ Hdig), (int_digits_complete _ _ _ _ Hmore Htrail).
  unfold int_max_str_digits.
  destruct (4300 <? 1 + length more)%nat eqn:Hlim.
  { apply Nat.ltb_lt in Hlim. lia. }
  assert (forallb is_space trail = true) as ->.
  { apply forallb_forall. intros c Hc. apply is_space_true.
    rewrite Forall_forall in Htrail. by apply Htrail, list_elem_of_In. }
  by rewrite decimal_cons.
Qed.

Lemma int_unsigned_sound negative s z :
  int_unsigned negative s = Value z ->
  exists d0 more trail,
    s = digitpart d0 more ++ trail /\
    Forall (fun d => 0 <= d <= 9)%Z (d0 :: more.*2) /\
    (S (length more) <= 4300)%nat /\
    Forall white_space trail /\
    z = (if negative then - decimal (d0 :: more.*2) else decimal (d0 :: more.*2))%Z.
Proof.
  unfold int_unsigned. destruct s as [|c s']; [done |].
  destruct (digit_of c) as [d0|] eqn:Hc; [| done].
  destruct (int_digits d0 1 s') as [[[z' n] rest]|] eqn:Hs; [| done].
  destruct (int_max_str_digits <? n)%nat eqn:Hlim; [done |].
  destruct (forallb is_space rest) eqn:Hrest; [| done].
  intros [= <-]. apply digit_of_Some in Hc as [Hd0 ->].
  apply int_digits_sound in Hs as (more & -> & Hmore & -> & ->).
  apply Nat.ltb_ge in Hlim. unfold int_max_str_digits in Hlim.
  exists d0, more, rest. split; [done |].
  split; [by apply Forall_cons_2 |]. split; [lia |].
  split.
  - apply Forall_forall. intros c Hc. apply is_space_true.
    rewrite forallb_forall in Hrest. by apply Hrest, list_elem_of_In.
  - by rewrite decimal_cons.
Qed.

Lemma int_literal_numeral text z :
  int_literal (list_ascii_of_string text) = Value z <-> numeral text z.
Proof.
  rewrite int_literal_eq. split.
  - destruct (skip_spaces_sound (list_ascii_of_string text)) as (lead & Htext & Hlead).
    destruct (skip_spaces (list_ascii_of_string text)) as [|c s']; [done |].
    destruct (Ascii.eqb c "+") eqn:Hplus; [| destruct (Ascii.eqb c "-") eqn:Hminus].
    + apply Ascii.eqb_eq in Hplus as ->. intros Hs.
      apply int_unsigned_sound in Hs as (d0 & more & trail & -> & Hds & Hlen & Ht & ->).
      exists lead, ["+"%char], d0, more, trail. repeat (split; [done |]). right. by left.
    + apply Ascii.eqb_eq in Hminus as ->. intros Hs.
      apply int_unsigned_sound in Hs as (d0 & more & trail & -> & Hds & Hlen & Ht & ->).
      exists lead, ["-"%char], d0, more, trail. repeat (split; [done |]). right. by right.
    + intros Hs.
      apply int_unsigned_sound in Hs as (d0 & more & trail & Heq & Hds & Hlen & Ht & ->).
      rewrite Heq in Htext.
      exists lead, [], d0, more, trail. repeat (split; [done |]). by left.
  - intros (lead & sgn & d0 & more & trail & -> & Hlead & Htrail & Hds & Hlen & Hsgn).
    rewrite (skip_spaces_app _ _ Hlead).
    pose proof (Forall_cons_1 _ _ _ Hds) as [Hd0 _].
    destruct (digit_char_facts d0 Hd0) as (_ & Hsp & Hplus & Hminus).
    destruct Hsgn as [[-> ->]|[[-> ->]|[-> ->]]].
    + cbn [app digitpart skip_spaces]. rewrite Hsp, Hplus, Hminus.
      apply (int_unsigned_complete false); done.
    + cbn [app skip_spaces]. change (is_space "+") with false. cbn iota.
      change (Ascii.eqb "+" "+") with true. cbn iota.
      apply (int_unsigned_complete false); done.
    + cbn [app skip_spaces]. change (is_space "-") with false. cbn iota.
      change (Ascii.eqb "-" "+") with false. change (Ascii.eqb "-" "-") with true.
      cbn iota. apply (int_unsigned_complete true); done.
Qed.

(** [int text] gives [q] exactly when [text] is a numeral of value [q];
    otherwise it raises [ValueError]. *)
Lemma int_Ok text q : int text = Ok q <-> numeral text q.
Proof.
  rewrite <- int_literal_numeral. unfold int.
  destruct (int_literal (list_ascii_of_string text)); split; congruence.
Qed.

Lemma int_Raise text e : int text = Raise e -> exists message, e = ValueError message.
Proof.
  unfold int. destruct (int_literal _); intros [=]; subst; by eexists.
Qed.

Lemma int_not_numeral text :
  (forall q, ~ numeral text q) -> exists message, int text = Raise (ValueError message).
Proof.
  intros Hnot. destruct (int text) as [q|e] eqn:Hint.
  - by apply int_Ok, Hnot in Hint.
  - apply int_Raise in Hint as [message ->]. by eexists.
Qed.

(** ** The product registry *)

Lemma select_id_app_Some name tbl new i :
  select_id name tbl = Some i -> select_id name (tbl ++ new) = Some i.
Proof.
  induction tbl as [|r tbl IH]; simpl; [done |].
  destruct (decide (p_name r = name)); [done | apply IH].
Qed.

Lemma select_id_app_None name tbl new :
  select_id name tbl = None -> select_id name (tbl ++ new) = select_id name new.
Proof.
  induction tbl as [|r tbl IH]; simpl; [done |].
  destruct (decide (p_name r = name)); [done | apply IH].
Qed.

Lemma select_id_elem name tbl i :
  select_id name tbl = Some i -> ProductRow i name ∈ tbl.
Proof.
  induction tbl as [|[j n] tbl IH]; simpl; [done |].
  destruct (decide (n = name)) as [->|Hne].
  - intros [= ->]. apply list_elem_of_here.
  - intros Hs. apply list_elem_of_further, IH, Hs.
Qed.

Lemma foldr_max_ge (i : Z) (ids : list Z) (x : Z) :
  x ∈ i :: ids -> (x <= foldr Z.max i ids)%Z.
Proof.
  induction ids as [|a ids IH]; simpl.
  - intros Hx. apply list_elem_of_singleton in Hx as ->. lia.
  - intros Hx. apply elem_of_cons in Hx as [->|Hx].
    + assert (i ∈ i :: ids) as Hi by apply list_elem_of_here.
      specialize (IH Hi). lia.
    + apply elem_of_cons in Hx as [->|Hx]; [lia |].
      assert (x ∈ i :: ids) as Hi by (by apply list_elem_of_further).
      specialize (IH Hi). lia.
Qed.

Lemma next_rowid_above tbl r : r ∈ tbl -> (p_id r < next_rowid tbl)%Z.
Proof.
  intros Hr. unfold next_rowid.
  assert (p_id r ∈ map p_id tbl) as Hin.
  { apply list_elem_of_In, in_map, list_elem_of_In, Hr. }
  destruct (map p_id tbl) as [|i ids]; [by apply elem_of_nil in Hin |].
  apply foldr_max_ge in Hin. lia.
Qed.

Lemma next_rowid_fresh tbl : next_rowid tbl ∉ p_id <$> tbl.
Proof.
  intros Hin. apply list_elem_of_fmap in Hin as (r & Heq & Hr).
  apply next_rowid_above in Hr. lia.
Qed.

Lemma get_or_create_product_eq product_name st :
  get_or_create_product product_name st
  = match select_id product_name (product (pending st)) with
    | Some i => (st, Ok i)
    | None =>
        (State (committed st)
               (Database (product (pending st)
                            ++ [ProductRow (next_rowid (product (pending st))) product_name])
                         (shipment (pending st)))
               (stdout st),
         Ok (next_rowid (product (pending st))))
    end.
Proof.
  unfold get_or_create_product, bind, execute_select_id, execute_insert_product, ret.
  by destruct (select_id product_name (product (pending st))).
Qed.

Lemma select_id_split name tbl i :
  select_id name tbl = Some i ->
  exists before after,
    tbl = before ++ ProductRow i name :: after /\ name ∉ p_name <$> before.
Proof.
  induction tbl as [|[j n] tbl IH]; simpl; [done |].
  destruct (decide (n = name)) as [->|Hne].
  - intros [= ->]. exists [], tbl. split; [done | apply not_elem_of_nil].
  - intros Hsel. destruct (IH Hsel) as (before & after & -> & Hbefore).
    exists (ProductRow j n :: before), after. split; [done |].
    csimpl. rewrite not_elem_of_cons. split; [congruence | done].
Qed.

Lemma select_id_absent name tbl : select_id name tbl = None <-> name ∉ p_name <$> tbl.
Proof.
  induction tbl as [|r tbl IH]; csimpl.
  - split; [intros _; apply not_elem_of_nil | done].
  - rewrite not_elem_of_cons. destruct (decide (p_name r = name)) as [Heq|Hne].
    + split; [done | intros [? _]; congruence].
    + rewrite IH. split; [intros ?; split; [congruence | done] | by intros [_ ?]].
Qed.

(** C3: two calls of [get_or_create_product] with the same name return the
    same id, and the second call leaves the state as the first one left it,
    so at most one product row is inserted.  When a product row has the
    name, the first call returns the id of the first such row and changes
    nothing; when no product row has the name, the first call appends
    exactly one row, with that name and a new id that no row of the table
    had, and returns that id. *)
Theorem get_or_create_product_idempotent (product_name : string) (st : state) :
  exists i st1,
    get_or_create_product product_name st = (st1, Ok i) /\
    get_or_create_product product_name st1 = (st1, Ok i) /\
    ((exists before after,
        product (pending st) = before ++ ProductRow i product_name :: after /\
        (product_name ∉ p_name <$> before) /\
        st1 = st) \/
     ((product_name ∉ p_name <$> product (pending st)) /\
      (i ∉ p_id <$> product (pending st)) /\
      st1 = State (committed st)
              (Database (product (pending st) ++ [ProductRow i product_name])
                        (shipment (pending st)))
              (stdout st))).
Proof.
  rewrite get_or_create_product_eq.
  destruct (select_id product_name (product (pending st))) as [j|] eqn:Hsel.
  - exists j, st. rewrite get_or_create_product_eq, Hsel.
    split; [done |]. split; [done |]. left.
    destruct (select_id_split _ _ _ Hsel) as (before & after & Htbl & Hbefore).
    by exists before, after.
  - eexists _, _. split; [reflexivity |].
    rewrite get_or_create_product_eq. simpl.
    rewrite (select_id_app_None _ _ _ Hsel). simpl.
    rewrite decide_True by done.
    split; [done |]. right. split; [by apply select_id_absent |].
    split; [apply next_rowid_fresh | done].
Qed.

(** C10: [get_or_create_product] has no check on the name: the empty
    string is handled as any other string.  For every name, when a product
    row has it the call returns the id of the first such row and changes
    nothing, and when no product row has it the call appends one row with
    that name and a new id and returns the id; in particular, after a call
    with the empty name the table has a row with the empty name and the
    id returned. *)
Theorem get_or_create_product_any_name (product_name : string) (st : state) :
  (product_name ∈ p_name <$> product (pending st) ->
   exists i before after,
     product (pending st) = before ++ ProductRow i product_name :: after /\
     (product_name ∉ p_name <$> before) /\
     get_or_create_product product_name st = (st, Ok i)) /\
  (product_name ∉ p_name <$> product (pending st) ->
   exists i,
     (i ∉ p_id <$> product (pending st)) /\
     get_or_create_product product_name st
     = (State (committed st)
              (Database (product (pending st) ++ [ProductRow i product_name])
                        (shipment (pending st)))
              (stdout st),
        Ok i)) /\
  (exists i,
     (get_or_create_product "" st).2 = Ok i /\
     ProductRow i "" ∈ product (pending (get_or_create_product "" st).1)).
Proof.
  split; [| split].
  - intros Hin. rewrite get_or_create_product_eq.
    destruct (select_id product_name (product (pending st))) as [j|] eqn:Hsel.
    + destruct (select_id_split _ _ _ Hsel) as (before & after & Htbl & Hbefore).
      by exists j, before, after.
    + by apply select_id_absent in Hsel.
  - intros Hnot. rewrite get_or_create_product_eq.
    apply select_id_absent in Hnot. rewrite Hnot.
    eexists. split; [apply next_rowid_fresh | done].
  - rewrite get_or_create_product_eq.
    destruct (select_id "" (product (pending st))) as [j|] eqn:Hsel; simpl.
    + exists j. split; [done |]. by apply select_id_elem.
    + eexists. split; [done |]. apply elem_of_app. right. apply list_elem_of_here.
Qed.

Lemma get_or_create_product_any_name_witness :
  let st := State empty_db (Database [ProductRow 4 "Bolt"] []) [] in
  (exists i,
     (i ∉ p_id <$> [ProductRow 4 "Bolt"]) /\
     get_or_create_product "" st
     = (State empty_db (Database ([ProductRow 4 "Bolt"] ++ [ProductRow i ""]) []) [],
        Ok i)) /\
  (exists i before after,
     [ProductRow 4 "Bolt"] = before ++ ProductRow i "Bolt" :: after /\
     ("Bolt" ∉ p_name <$> before) /\
     get_or_create_product "Bolt" st = (st, Ok i)).
Proof.
  intros st. split.
  - apply (proj1 (proj2 (get_or_create_product_any_name "" st))).
    apply (bool_decide_unpack _). vm_compute. exact I.
  - apply (proj1 (get_or_create_product_any_name "Bolt" st)).
    apply (bool_decide_unpack _). vm_compute. exact I.
Defined.

(** ** Loading the locations *)

Lemma load_shipment_info_app rows rows' acc :
  load_shipment_info (rows ++ rows') acc
  = result_bind (load_shipment_info rows acc) (load_shipment_info rows').
Proof.
  revert acc. induction rows as [|r rows IH]; intros acc; simpl; [done |].
  unfold getitem.
  destruct (r !! "shipment_identifier"); simpl; [| done].
  destruct (r !! "origin_warehouse"); simpl; [| done].
  destruct (r !! "destination_store"); simpl; [| done].
  apply IH.
Qed.

Lemma load_shipment_info_cons r rows acc shipment_id o d :
  locates shipment_id o d r ->
  load_shipment_info (r :: rows) acc
  = load_shipment_info rows (dict_set shipment_id (Info o d) acc).
Proof. intros (Hs & Ho & Hd). simpl. unfold getitem. by rewrite Hs, Ho, Hd. Qed.

Lemma load_shipment_info_Ok rows acc :
  Forall (fun r => exists shipment_id o d, locates shipment_id o d r) rows ->
  exists shipment_info, load_shipment_info rows acc = Ok shipment_info.
Proof.
  intros Hall. revert acc.
  induction Hall as [|r rows (sid & o & d & Hr) _ IH]; intros acc.
  - by exists acc.
  - rewrite (load_shipment_info_cons _ _ _ _ _ _ Hr). apply IH.
Qed.

Lemma load_shipment_info_other rows acc shipment_info shipment_id :
  load_shipment_info rows acc = Ok shipment_info ->
  Forall (fun r => r !! "shipment_identifier" ≠ Some shipment_id) rows ->
  dict_get shipment_id shipment_info = dict_get shipment_id acc.
Proof.
  intros Hload Hall. revert acc Hload.
  induction Hall as [|r rows Hr _ IH]; intros acc; simpl.
  - by intros [= ->].
  - unfold getitem.
    destruct (r !! "shipment_identifier") as [sid|] eqn:Hs; simpl; [| done].
    destruct (r !! "origin_warehouse") as [o|]; simpl; [| done].
    destruct (r !! "destination_store") as [d|]; simpl; [| done].
    intros Hload. rewrite (IH _ Hload).
    apply dict_get_set_ne. congruence.
Qed.

Lemma load_shipment_info_NoDup rows acc shipment_info :
  load_shipment_info rows acc = Ok shipment_info ->
  NoDup acc.*1 -> NoDup shipment_info.*1.
Proof.
  revert acc. induction rows as [|r rows IH]; intros acc; simpl.
  - by intros [= ->].
  - unfold getitem.
    destruct (r !! "shipment_identifier") as [sid|]; simpl; [| done].
    destruct (r !! "origin_warehouse") as [o|]; simpl; [| done].
    destruct (r !! "destination_store") as [d|]; simpl; [| done].
    intros Hload Hnd. apply (IH _ Hload). by apply dict_set_NoDup.
Qed.

Lemma load_shipment_info_last
    (before after : list row) (r : row) (shipment_id o d : string) acc :
  Forall (fun r' => exists s o' d', locates s o' d' r') (before ++ r :: after) ->
  locates shipment_id o d r ->
  Forall (fun r' => r' !! "shipment_identifier" ≠ Some shipment_id) after ->
  exists shipment_info,
    load_shipment_info (before ++ r :: after) acc = Ok shipment_info /\
    dict_get shipment_id shipment_info = Some (Info o d).
Proof.
  intros Hall Hr Hafter.
  destruct (load_shipment_info_Ok _ acc Hall) as [shipment_info Hload].
  exists shipment_info. split; [done |].
  rewrite load_shipment_info_app in Hload.
  destruct (load_shipment_info before acc) as [acc'|e]; cbn [result_bind] in Hload;
    [| done].
  rewrite (load_shipment_info_cons _ _ _ _ _ _ Hr) in Hload.
  rewrite (load_shipment_info_other _ _ _ _ Hload Hafter).
  apply dict_get_set_eq.
Qed.

(** C6: when several location rows have the same shipment identifier, the
    loading succeeds, and the mapping holds for that identifier the origin
    and destination of the last such row (and one entry only). *)
Theorem load_shipment_info_last_wins
    (before after : list row) (r : row) (shipment_id o d : string) :
  Forall (fun r' => exists s o' d', locates s o' d' r') (before ++ r :: after) ->
  locates shipment_id o d r ->
  Forall (fun r' => r' !! "shipment_identifier" ≠ Some shipment_id) after ->
  exists shipment_info,
    load_shipment_info (before ++ r :: after) [] = Ok shipment_info /\
    dict_get shipment_id shipment_info = Some (Info o d) /\
    NoDup shipment_info.*1.
Proof.
  intros Hall Hr Hafter.
  destruct (load_shipment_info_last _ _ _ _ _ _ [] Hall Hr Hafter)
    as (shipment_info & Hload & Hget).
  exists shipment_info. split; [done |]. split; [done |].
  by apply (load_shipment_info_NoDup _ _ _ Hload), NoDup_nil.
Qed.

Lemma load_shipment_info_last_wins_witness :
  exists shipment_info,
    load_shipment_info
      ([location "A1" "W1" "S1"; location "B7" "W3" "S3"]
         ++ location "A1" "W2" "S2" :: [location "C2" "W4" "S4"]) []
    = Ok shipment_info /\
    dict_get "A1" shipment_info = Some (Info "W2" "S2") /\
    NoDup shipment_info.*1.
Proof.
  apply (load_shipment_info_last_wins
           [location "A1" "W1" "S1"; location "B7" "W3" "S3"]
           [location "C2" "W4" "S4"]
           (location "A1" "W2" "S2") "A1" "W2" "S2").
  - repeat apply Forall_cons_2; try apply Forall_nil_2.
    + exists "A1", "W1", "S1". by vm_compute.
    + exists "B7", "W3", "S3". by vm_compute.
    + exists "A1", "W2", "S2". by vm_compute.
    + exists "C2", "W4", "S4". by vm_compute.
  - by vm_compute.
  - repeat apply Forall_cons_2; try apply Forall_nil_2. by vm_compute.
Defined.

(** ** Counting the fact rows *)

Lemma dict_set_Forall {K V} `{EqDecision K} (P : K * V -> Prop) k v (d : list (K * V)) :
  Forall P d -> P (k, v) -> Forall P (dict_set k v d).
Proof.
  intros Hall Hkv. induction Hall as [|[k0 v0] d Hx Hd IH]; simpl.
  - by apply Forall_cons_2.
  - destruct (decide (k0 = k)) as [->|Hne]; by apply Forall_cons_2.
Qed.

Lemma counts_wf_products product_counts shipment_id :
  counts_wf product_counts ->
  NoDup (default [] (dict_get shipment_id product_counts)).*1.
Proof.
  intros [_ Hall].
  destruct (dict_get shipment_id product_counts) as [products|] eqn:Hg; simpl.
  - apply dict_get_Some_elem in Hg.
    rewrite Forall_forall in Hall. apply (Hall _ Hg).
  - apply NoDup_nil_2.
Qed.

Lemma increment_wf shipment_id product_name product_counts :
  counts_wf product_counts -> counts_wf (increment shipment_id product_name product_counts).
Proof.
  intros Hwf. pose proof (counts_wf_products _ shipment_id Hwf) as Hp.
  destruct Hwf as [Hnd Hall]. unfold increment. split.
  - by apply dict_set_NoDup.
  - apply dict_set_Forall; [done |]. simpl. by apply dict_set_NoDup.
Qed.

Lemma entry_increment shipment_id product_name s p product_counts :
  entry s p (increment shipment_id product_name product_counts)
  = if decide (shipment_id = s /\ product_name = p)
    then Some (default 0 (entry s p product_counts) + 1)%Z
    else entry s p product_counts.
Proof.
  unfold entry, increment.
  destruct (decide (shipment_id = s)) as [->|Hs].
  - rewrite dict_get_set_eq.
    destruct (decide (product_name = p)) as [->|Hp].
    + rewrite decide_True by done. rewrite dict_get_set_eq.
      by destruct (dict_get s product_counts).
    + rewrite decide_False by (intros [_ ?]; done).
      rewrite dict_get_set_ne by done.
      by destruct (dict_get s product_counts).
  - rewrite decide_False by (intros [? _]; done).
    by rewrite dict_get_set_ne.
Qed.

Lemma occurrences_cons s p r rows :
  occurrences s p (r :: rows)
  = ((if decide (carries s p r) then 1 else 0) + occurrences s p rows)%Z.
Proof.
  unfold occurrences. rewrite filter_cons.
  destruct (decide (carries s p r)); simpl length; lia.
Qed.

Lemma occurrences_nonneg s p rows : (0 <= occurrences s p rows)%Z.
Proof. unfold occurrences. lia. Qed.

Lemma occurrences_pos s p rows :
  (0 < occurrences s p rows)%Z <-> Exists (carries s p) rows.
Proof.
  induction rows as [|r rows IH].
  - unfold occurrences. simpl. rewrite Exists_nil. lia.
  - rewrite occurrences_cons, Exists_cons.
    pose proof (occurrences_nonneg s p rows).
    destruct (decide (carries s p r)); [intuition lia |].
    rewrite <- IH. intuition lia.
Qed.

Lemma occurrences_perm s p rows rows' :
  rows ≡ₚ rows' -> occurrences s p rows = occurrences s p rows'.
Proof. intros Hperm. unfold occurrences. by rewrite Hperm. Qed.

Lemma count_products_cons r rows acc s p :
  carries s p r ->
  count_products (r :: rows) acc = count_products rows (increment s p acc).
Proof. intros [Hs Hp]. simpl. unfold getitem. by rewrite Hs, Hp. Qed.

Lemma count_products_Ok_inv r rows acc product_counts :
  count_products (r :: rows) acc = Ok product_counts ->
  exists s p, carries s p r /\ count_products rows (increment s p acc) = Ok product_counts.
Proof.
  simpl. unfold getitem, carries.
  destruct (r !! "shipment_identifier") as [s|]; simpl; [| done].
  destruct (r !! "product") as [p|]; simpl; [| done].
  intros Hc. by exists s, p.
Qed.

Lemma count_products_Ok rows acc :
  Forall (fun r => exists s p, carries s p r) rows <->
  exists product_counts, count_products rows acc = Ok product_counts.
Proof.
  revert acc. induction rows as [|r rows IH]; intros acc.
  - split; [by exists acc | intros _; apply Forall_nil_2].
  - rewrite Forall_cons. split.
    + intros [(s & p & Hr) Hall]. rewrite (count_products_cons _ _ _ _ _ Hr).
      by apply IH.
    + intros [product_counts Hc].
      apply count_products_Ok_inv in Hc as (s & p & Hr & Hc).
      split; [by exists s, p |]. apply (IH (increment s p acc)). by eexists.
Qed.

Lemma count_products_wf rows acc product_counts :
  count_products rows acc = Ok product_counts ->
  counts_wf acc -> counts_wf product_counts.
Proof.
  revert acc. induction rows as [|r rows IH]; intros acc.
  - by intros [= ->].
  - intros Hc Hwf. apply count_products_Ok_inv in Hc as (s & p & Hr & Hc).
    apply (IH _ Hc). by apply increment_wf.
Qed.

Lemma count_products_entry rows acc product_counts s p :
  count_products rows acc = Ok product_counts ->
  entry s p product_counts
  = if decide (occurrences s p rows = 0%Z) then entry s p acc
    else Some (default 0 (entry s p acc) + occurrences s p rows)%Z.
Proof.
  revert acc. induction rows as [|r rows IH]; intros acc.
  - intros [= ->]. by rewrite decide_True.
  - intros Hc. apply count_products_Ok_inv in Hc as (s' & p' & Hr & Hc).
    rewrite (IH _ Hc), entry_increment, occurrences_cons.
    pose proof (occurrences_nonneg s p rows) as Hn.
    destruct (decide (carries s p r)) as [Hsp|Hsp].
    + assert (s' = s /\ p' = p) as Heq.
      { destruct Hr as [Hr1 Hr2], Hsp as [Hs1 Hs2]. split; congruence. }
      rewrite (decide_True _ _ Heq).
      rewrite (decide_False (P := (1 + _ = 0)%Z)) by lia.
      destruct (decide (occurrences s p rows = 0%Z)) as [->|_]; simpl; f_equal; lia.
    + assert (~ (s' = s /\ p' = p)) as Hne.
      { intros [-> ->]. by apply Hsp. }
      rewrite (decide_False _ _ Hne).
      destruct (decide (occurrences s p rows = 0%Z)) as [Hz|Hz].
      * by rewrite decide_True by lia.
      * rewrite decide_False by lia. f_equal; lia.
Qed.

Lemma elem_of_entries product_counts s p q :
  counts_wf product_counts ->
  (s, p, q) ∈ entries product_counts <-> entry s p product_counts = Some q.
Proof.
  intros [Hnd Hall]. unfold entries, entry. rewrite list_elem_of_bind. split.
  - intros ([s0 products] & Hin & Hitem).
    apply list_elem_of_fmap in Hin as ([p0 q0] & [= -> -> ->] & Hpq).
    rewrite (dict_elem_get _ _ _ Hnd Hitem).
    apply dict_elem_get; [| done].
    rewrite Forall_forall in Hall. apply (Hall _ Hitem).
  - destruct (dict_get s product_counts) as [products|] eqn:Hs; [| done].
    intros Hq. exists (s, products). split.
    + apply list_elem_of_fmap. exists (p, q). split; [done |].
      by apply dict_get_Some_elem.
    + by apply dict_get_Some_elem.
Qed.

Lemma entries_cons s (products : list (string * Z)) product_counts :
  entries ((s, products) :: product_counts)
  = ((fun '(p, q) => (s, p, q)) <$> products) ++ entries product_counts.
Proof. reflexivity. Qed.

Lemma entries_keys_NoDup product_counts :
  counts_wf product_counts -> NoDup (entries product_counts).*1.
Proof.
  intros [Hnd Hall].
  induction product_counts as [|[s products] product_counts IH].
  - apply NoDup_nil_2.
  - rewrite entries_cons, fmap_app.
    apply NoDup_cons in Hnd as [Hs Hnd]. apply Forall_cons in Hall as [Hp Hall].
    apply NoDup_app. split; [| split; [| by apply IH]].
    + rewrite <- list_fmap_compose.
      rewrite (list_fmap_ext _ (pair s ∘ fst) products) by (by intros ? [p q] ?).
      rewrite list_fmap_compose. apply NoDup_fmap_2; [| done].
      by intros p p' [= ->].
    + intros [s' p'] Hin Hin'.
      apply list_elem_of_fmap in Hin as ([[s1 p1] q1] & Heq1 & Hin).
      apply list_elem_of_fmap in Hin as ([p2 q2] & Heq2 & _).
      apply list_elem_of_fmap in Hin' as ([[s3 p3] q3] & Heq3 & Hin').
      apply list_elem_of_bind in Hin' as ([s4 products4] & Hin' & Hitem).
      apply list_elem_of_fmap in Hin' as ([p5 q5] & Heq5 & _).
      simpl in *. simplify_eq.
      apply Hs. apply list_elem_of_fmap. eexists; split; [| exact Hitem]. done.
Qed.

(** The canonical tuples are the entries whose shipment has a location. *)
Lemma emitted_entries shipment_info product_counts :
  emitted shipment_info product_counts
  = omap (fun '(s, p, q) =>
            (fun i => Canonical p q (info_origin i) (info_destination i))
            <$> dict_get s shipment_info)
         (entries product_counts).
Proof.
  induction product_counts as [|[s products] product_counts IH]; [done |].
  rewrite entries_cons, omap_app, <- IH.
  change (emitted shipment_info ((s, products) :: product_counts))
    with (emit shipment_info (s, products) ++ emitted shipment_info product_counts).
  f_equal. unfold emit. simpl.
  destruct (dict_get s shipment_info) as [i|] eqn:Hs.
  - induction products as [|[p q] products IHp]; csimpl; [done |].
    by rewrite Hs, IHp.
  - induction products as [|[p q] products IHp]; csimpl; [done |].
    by rewrite Hs.
Qed.

(** C1: after the counting loop, the quantity that the emission loop finds
    for a pair (shipment identifier, product name) is the number of fact
    rows carrying that pair; each pair with at least one row occurs once and
    no other pair occurs.  Reading the same rows in another order gives the
    same pairs with the same quantities (in another order of emission). *)
Theorem count_products_exact
    (rows rows' : list row) (product_counts : list (string * list (string * Z))) :
  count_products rows [] = Ok product_counts ->
  rows ≡ₚ rows' ->
  NoDup (entries product_counts).*1 /\
  (forall s p q,
     (s, p, q) ∈ entries product_counts <->
     q = occurrences s p rows /\ (0 < q)%Z) /\
  (forall shipment_info,
     emitted shipment_info product_counts
     = omap (fun '(s, p, q) =>
               (fun i => Canonical p q (info_origin i) (info_destination i))
               <$> dict_get s shipment_info)
            (entries product_counts)) /\
  exists product_counts',
    count_products rows' [] = Ok product_counts' /\
    entries product_counts' ≡ₚ entries product_counts.
Proof.
  intros Hc Hperm.
  assert (counts_wf []) as Hwf0 by (split; [apply NoDup_nil_2 | apply Forall_nil_2]).
  pose proof (count_products_wf _ _ _ Hc Hwf0) as Hwf.
  assert (forall rows0 pc0, count_products rows0 [] = Ok pc0 ->
            forall s p q, (s, p, q) ∈ entries pc0 <->
                          q = occurrences s p rows0 /\ (0 < q)%Z) as Hchar.
  { intros rows0 pc0 Hc0 s p q.
    rewrite (elem_of_entries _ _ _ _ (count_products_wf _ _ _ Hc0 Hwf0)).
    rewrite (count_products_entry _ _ _ s p Hc0).
    pose proof (occurrences_nonneg s p rows0).
    destruct (decide (occurrences s p rows0 = 0%Z)) as [Hz|Hz]; simpl.
    - split; [done | lia].
    - split; [intros [= <-]; lia | intros [-> _]; f_equal; lia]. }
  split; [by apply entries_keys_NoDup |].
  split; [by apply Hchar |].
  split; [intros; apply emitted_entries |].
  assert (exists pc', count_products rows' [] = Ok pc') as [pc' Hc'].
  { apply count_products_Ok. rewrite <- Hperm. apply (count_products_Ok rows []).
    by eexists. }
  exists pc'. split; [done |].
  apply NoDup_Permutation.
  - eapply NoDup_fmap_1, entries_keys_NoDup, count_products_wf; eauto.
  - eapply NoDup_fmap_1, entries_keys_NoDup; eauto.
  - intros [[s p] q]. rewrite (Hchar _ _ Hc'), (Hchar _ _ Hc).
    by rewrite (occurrences_perm _ _ _ _ Hperm).
Qed.

Lemma count_products_exact_witness :
  let rows := [fact "A1" "Bolt"; fact "B2" "Nut"; fact "A1" "Nut"; fact "A1" "Bolt"] in
  let rows' := [fact "B2" "Nut"; fact "A1" "Bolt"; fact "A1" "Nut"; fact "A1" "Bolt"] in
  let product_counts :=
    [("A1", [("Bolt", 2%Z); ("Nut", 1%Z)]); ("B2", [("Nut", 1%Z)])] in
  count_products rows [] = Ok product_counts /\
  count_products rows' []
  = Ok [("B2", [("Nut", 1%Z)]); ("A1", [("Bolt", 2%Z); ("Nut", 1%Z)])] /\
  forall s p q,
    (s, p, q) ∈ entries product_counts <-> q = occurrences s p rows /\ (0 < q)%Z.
Proof.
  intros rows rows' product_counts.
  split; [reflexivity |]. split; [reflexivity |].
  apply (count_products_exact rows rows' product_counts);
    [reflexivity | apply perm_swap].
Defined.

(** ** Storing canonical tuples *)

Lemma get_then_insert product_name quantity origin destination st :
  (product_id <~ get_or_create_product product_name ;;
   insert_shipment product_id quantity origin destination) st
  = (State (committed st)
           (store (pending st) (Canonical product_name quantity origin destination))
           (stdout st),
     Ok tt).
Proof.
  unfold bind at 1. rewrite get_or_create_product_eq. unfold store. simpl.
  by destruct (select_id product_name (product (pending st))).
Qed.

Lemma store_all_app cs cs' db :
  store_all (cs ++ cs') db = store_all cs' (store_all cs db).
Proof. apply foldl_app. Qed.

Lemma insert_products_eq origin destination products st :
  insert_products origin destination products st
  = (State (committed st)
           (store_all ((fun '(p, q) => Canonical p q origin destination) <$> products)
                      (pending st))
           (stdout st),
     Ok tt).
Proof.
  unfold insert_products. revert st.
  induction products as [|[p q] products IH]; intros st.
  - by destruct st.
  - cbn [for_each]. unfold bind at 1. rewrite get_then_insert. by rewrite IH.
Qed.

Lemma emitted_cons shipment_info item product_counts :
  emitted shipment_info (item :: product_counts)
  = emit shipment_info item ++ emitted shipment_info product_counts.
Proof. reflexivity. Qed.

Lemma emitted_app shipment_info pc pc' :
  emitted shipment_info (pc ++ pc')
  = emitted shipment_info pc ++ emitted shipment_info pc'.
Proof. apply bind_app. Qed.

Lemma insert_records_eq shipment_info product_counts st :
  insert_records shipment_info product_counts st
  = (State (committed st)
           (store_all (emitted shipment_info product_counts) (pending st))
           (stdout st ++ (warning <$> missing shipment_info product_counts)),
     Ok tt).
Proof.
  unfold insert_records. revert st.
  induction product_counts as [|[s products] product_counts IH]; intros st.
  - destruct st. simpl. by rewrite app_nil_r.
  - cbn [for_each]. unfold bind at 1.
    rewrite emitted_cons, store_all_app. unfold missing, emit. csimpl.
    rewrite filter_cons.
    destruct (dict_get s shipment_info) as [i|] eqn:Hs.
    + rewrite insert_products_eq, IH. done.
    + unfold print. rewrite IH. csimpl. by rewrite <- app_assoc.
Qed.

Lemma store_product_extends db c :
  exists new, product (store db c) = product db ++ new.
Proof.
  unfold store. destruct (select_id (c_product_name c) (product db)); simpl.
  - exists []. by rewrite app_nil_r.
  - by eexists.
Qed.

Lemma store_all_product_extends cs db :
  exists new, product (store_all cs db) = product db ++ new.
Proof.
  revert db. induction cs as [|c cs IH]; intros db.
  - exists []. simpl. by rewrite app_nil_r.
  - destruct (store_product_extends db c) as [new Hnew].
    destruct (IH (store db c)) as [new' Hnew'].
    exists (new ++ new').
    change (store_all (c :: cs) db) with (store_all cs (store db c)).
    by rewrite Hnew', Hnew, app_assoc.
Qed.

Lemma store_shipment db c :
  is_Some (select_id (c_product_name c) (product (store db c))) /\
  shipment (store db c) = shipment db ++ [resolve (product (store db c)) c].
Proof.
  unfold store, resolve.
  destruct (select_id (c_product_name c) (product db)) as [i|] eqn:Hsel; simpl.
  - rewrite Hsel. split; [by eexists | done].
  - rewrite (select_id_app_None _ _ _ Hsel). simpl.
    rewrite decide_True by done. split; [by eexists | done].
Qed.

Lemma resolve_extends tbl new c :
  is_Some (select_id (c_product_name c) tbl) ->
  resolve (tbl ++ new) c = resolve tbl c.
Proof.
  intros [i Hi]. unfold resolve.
  by rewrite (select_id_app_Some _ _ new _ Hi), Hi.
Qed.

(** Every stored tuple gives one shipment row, appended in order, whose
    product id is the id of the tuple's product name in the final table. *)
Lemma store_all_shipment cs db :
  Forall (fun c => is_Some (select_id (c_product_name c) (product (store_all cs db)))) cs /\
  shipment (store_all cs db)
  = shipment db ++ (resolve (product (store_all cs db)) <$> cs).
Proof.
  revert db. induction cs as [|c cs IH]; intros db.
  - split; [apply Forall_nil_2 |]. simpl. by rewrite app_nil_r.
  - destruct (IH (store db c)) as [IH1 IH2].
    destruct (store_shipment db c) as [[i Hi] Hs].
    destruct (store_all_product_extends cs (store db c)) as [new Hnew].
    change (store_all (c :: cs) db) with (store_all cs (store db c)).
    split.
    + apply Forall_cons_2; [| done].
      rewrite Hnew. rewrite (select_id_app_Some _ _ new _ Hi). by eexists.
    + rewrite IH2, Hs, <- app_assoc. csimpl. f_equal. f_equal.
      rewrite Hnew. symmetry. apply resolve_extends. by eexists.
Qed.

Lemma process_shipping_data_0_eq rows st :
  process_shipping_data_0 rows st
  = (State (committed st) (store_all (read_rows_0 rows).1 (pending st)) (stdout st),
     match (read_rows_0 rows).2 with
     | None => Ok tt
     | Some e => Raise e
     end).
Proof.
  unfold process_shipping_data_0. revert st.
  induction rows as [|r rows IH]; intros st.
  - by destruct st.
  - cbn [for_each read_rows_0]. unfold bind at 1. unfold bind at 1. unfold lift.
    destruct (row_0_fields r) as [[p q o d]|e]; [| by destruct st].
    cbn [c_product_name c_quantity c_origin c_destination].
    rewrite get_then_insert, IH. by destruct (read_rows_0 rows).
Qed.

(** ** The join of the fact rows with the locations *)

Lemma has_fields_1 r : has_fields fields_1 r <-> exists s p, carries s p r.
Proof.
  unfold has_fields, fields_1, carries. rewrite !Forall_cons. split.
  - intros ([s Hs] & [p Hp] & _). by exists s, p.
  - intros (s & p & Hs & Hp). rewrite Hs, Hp. by repeat split; try eexists.
Qed.

Lemma has_fields_2 r : has_fields fields_2 r <-> exists s o d, locates s o d r.
Proof.
  unfold has_fields, fields_2, locates. rewrite !Forall_cons. split.
  - intros ([s Hs] & [o Ho] & [d Hd] & _). by exists s, o, d.
  - intros (s & o & d & Hs & Ho & Hd). rewrite Hs, Ho, Hd.
    by repeat split; try eexists.
Qed.

Lemma process_shipping_data_1_and_2_eq rows_1 rows_2 st :
  process_shipping_data_1_and_2 rows_1 rows_2 st
  = match load_shipment_info rows_2 [] with
    | Raise e => (st, Raise e)
    | Ok shipment_info =>
        match count_products rows_1 [] with
        | Raise e => (st, Raise e)
        | Ok product_counts => insert_records shipment_info product_counts st
        end
    end.
Proof.
  unfold process_shipping_data_1_and_2, bind, lift.
  destruct (load_shipment_info rows_2 []); [| done].
  by destruct (count_products rows_1 []).
Qed.

(** What the counting loop holds for a shipment identifier that occurs in
    the fact rows: one item, with one key per product of that shipment and
    the number of its rows as the value. *)
Lemma count_products_shipment rows_1 shipment_id :
  Forall (has_fields fields_1) rows_1 ->
  (exists p, Exists (carries shipment_id p) rows_1) ->
  exists product_counts before products after,
    count_products rows_1 [] = Ok product_counts /\
    product_counts = before ++ (shipment_id, products) :: after /\
    (shipment_id ∉ before.*1) /\ (shipment_id ∉ after.*1) /\
    NoDup products.*1 /\
    (forall p, p ∈ products.*1 <-> Exists (carries shipment_id p) rows_1) /\
    (forall p q, (p, q) ∈ products -> q = occurrences shipment_id p rows_1).
Proof.
  intros Hall [p0 Hp0].
  assert (exists pc, count_products rows_1 [] = Ok pc) as [pc Hc].
  { apply count_products_Ok. eapply Forall_impl; [exact Hall |].
    by intros r ?%has_fields_1. }
  assert (counts_wf []) as Hwf0 by (split; [apply NoDup_nil_2 | apply Forall_nil_2]).
  pose proof (count_products_wf _ _ _ Hc Hwf0) as [Hnd Hnds].
  pose proof (fun p => count_products_entry _ _ _ shipment_id p Hc) as Hentry.
  unfold entry in Hentry. simpl in Hentry.
  destruct (dict_get shipment_id pc) as [products|] eqn:Hget.
  2:{ apply occurrences_pos in Hp0. specialize (Hentry p0).
      rewrite decide_False in Hentry by lia. done. }
  destruct (dict_get_split _ _ _ Hget) as (before & after & -> & Hbefore).
  exists (before ++ (shipment_id, products) :: after), before, products, after.
  assert (NoDup products.*1) as Hndp.
  { rewrite Forall_forall in Hnds. apply (Hnds (shipment_id, products)).
    by apply dict_get_Some_elem. }
  split; [done |]. split; [done |]. split; [done |].
  split; [| split; [done |]; split].
  - rewrite fmap_app, fmap_cons in Hnd. apply NoDup_app in Hnd as (_ & _ & Hnd).
    by apply NoDup_cons in Hnd as [? _].
  - intros p. rewrite <- occurrences_pos. specialize (Hentry p).
    pose proof (occurrences_nonneg shipment_id p rows_1).
    destruct (decide (occurrences shipment_id p rows_1 = 0%Z)) as [Hz|Hz].
    + apply dict_get_None in Hentry. split; [done | lia].
    + split; [lia |]. intros _.
      destruct (decide (p ∈ products.*1)) as [|Hn]; [done |].
      apply dict_get_None in Hn. congruence.
  - intros p q Hpq. apply (dict_elem_get _ _ _ Hndp) in Hpq.
    specialize (Hentry p). rewrite Hpq in Hentry.
    destruct (decide (occurrences shipment_id p rows_1 = 0%Z)); [done |].
    injection Hentry as ->. lia.
Qed.

(** C2: for a shipment identifier that occurs in the fact rows and has a
    location row, the run succeeds and the canonical tuples emitted hold,
    for that identifier, one tuple per distinct product seen under it (in
    the order of first sight), each with the number of its fact rows as the
    quantity and with the origin and destination of the identifier's (last)
    location row; every emitted tuple becomes one shipment row. *)
Theorem join_completeness
    (rows_1 before_2 after_2 : list row) (r : row) (shipment_id o d : string)
    (st : state) :
  Forall (has_fields fields_1) rows_1 ->
  Forall (has_fields fields_2) (before_2 ++ r :: after_2) ->
  locates shipment_id o d r ->
  Forall (fun r' => r' !! "shipment_identifier" ≠ Some shipment_id) after_2 ->
  (exists p, Exists (carries shipment_id p) rows_1) ->
  exists shipment_info product_counts before products after,
    load_shipment_info (before_2 ++ r :: after_2) [] = Ok shipment_info /\
    count_products rows_1 [] = Ok product_counts /\
    product_counts = before ++ (shipment_id, products) :: after /\
    (shipment_id ∉ before.*1) /\ (shipment_id ∉ after.*1) /\
    NoDup products.*1 /\
    (forall p, p ∈ products.*1 <-> Exists (carries shipment_id p) rows_1) /\
    (forall p q, (p, q) ∈ products -> q = occurrences shipment_id p rows_1) /\
    emitted shipment_info product_counts
    = emitted shipment_info before
        ++ ((fun '(p, q) => Canonical p q o d) <$> products)
        ++ emitted shipment_info after /\
    process_shipping_data_1_and_2 rows_1 (before_2 ++ r :: after_2) st
    = (State (committed st)
             (store_all (emitted shipment_info product_counts) (pending st))
             (stdout st ++ (warning <$> missing shipment_info product_counts)),
       Ok tt) /\
    shipment (store_all (emitted shipment_info product_counts) (pending st))
    = shipment (pending st)
        ++ (resolve (product (store_all (emitted shipment_info product_counts)
                                        (pending st)))
            <$> emitted shipment_info product_counts).
Proof.
  intros H1 H2 Hr Hafter Hocc.
  assert (Forall (fun r' => exists s o' d', locates s o' d' r') (before_2 ++ r :: after_2))
    as H2'.
  { eapply Forall_impl; [exact H2 |]. by intros r' ?%has_fields_2. }
  destruct (load_shipment_info_last _ _ _ _ _ _ [] H2' Hr Hafter)
    as (shipment_info & Hload & Hget).
  destruct (count_products_shipment _ _ H1 Hocc)
    as (pc & before & products & after & Hc & -> & Hb & Ha & Hnd & Hkeys & Hq).
  exists shipment_info, (before ++ (shipment_id, products) :: after),
    before, products, after.
  repeat (split; [done |]).
  split; [| split].
  - rewrite emitted_app, emitted_cons. unfold emit. simpl. by rewrite Hget.
  - rewrite process_shipping_data_1_and_2_eq, Hload, Hc. apply insert_records_eq.
  - apply store_all_shipment.
Qed.

Lemma join_completeness_witness :
  exists shipment_info product_counts,
    load_shipment_info ([location "A1" "W9" "S9"] ++ location "A1" "W2" "S2" :: []) []
    = Ok shipment_info /\
    count_products [fact "A1" "Bolt"; fact "A1" "Bolt"; fact "A1" "Nut"] []
    = Ok product_counts /\
    emitted shipment_info product_counts
    = [Canonical "Bolt" 2 "W2" "S2"; Canonical "Nut" 1 "W2" "S2"] /\
    process_shipping_data_1_and_2
      [fact "A1" "Bolt"; fact "A1" "Bolt"; fact "A1" "Nut"]
      ([location "A1" "W9" "S9"] ++ location "A1" "W2" "S2" :: [])
      (connect empty_db)
    = (State empty_db
             (Database [ProductRow 1 "Bolt"; ProductRow 2 "Nut"]
                       [ShipmentRow 1 2 "W2" "S2"; ShipmentRow 2 1 "W2" "S2"])
             [],
       Ok tt).
Proof.
  destruct (join_completeness
              [fact "A1" "Bolt"; fact "A1" "Bolt"; fact "A1" "Nut"]
              [location "A1" "W9" "S9"] [] (location "A1" "W2" "S2")
              "A1" "W2" "S2" (connect empty_db))
    as (shipment_info & product_counts & before & products & after
        & Hload & Hcount & _).
  - solve_fields.
  - solve_fields.
  - by vm_compute.
  - apply Forall_nil_2.
  - exists "Bolt". apply Exists_cons_hd. by vm_compute.
  - exists shipment_info, product_counts.
    split; [exact Hload |]. split; [exact Hcount |].
    vm_compute in Hload. vm_compute in Hcount.
    injection Hload as <-. injection Hcount as <-.
    split; reflexivity.
Defined.

Lemma missing_app shipment_info pc pc' :
  missing shipment_info (pc ++ pc')
  = missing shipment_info pc ++ missing shipment_info pc'.
Proof. unfold missing. by rewrite fmap_app, filter_app. Qed.

(** C4: a shipment identifier of the fact rows that no location row has
    gives no canonical tuple (none of its products is emitted) and one
    warning line; the loop goes on with the items after it, and the run
    returns normally. *)
Theorem missing_location_skipped
    (rows_1 rows_2 : list row) (shipment_id : string) (st : state) :
  Forall (has_fields fields_1) rows_1 ->
  Forall (has_fields fields_2) rows_2 ->
  Forall (fun r => r !! "shipment_identifier" ≠ Some shipment_id) rows_2 ->
  (exists p, Exists (carries shipment_id p) rows_1) ->
  exists shipment_info product_counts before products after,
    load_shipment_info rows_2 [] = Ok shipment_info /\
    count_products rows_1 [] = Ok product_counts /\
    product_counts = before ++ (shipment_id, products) :: after /\
    (shipment_id ∉ before.*1) /\ (shipment_id ∉ after.*1) /\
    emit shipment_info (shipment_id, products) = [] /\
    emitted shipment_info product_counts
    = emitted shipment_info before ++ emitted shipment_info after /\
    missing shipment_info product_counts
    = missing shipment_info before ++ shipment_id :: missing shipment_info after /\
    insert_records shipment_info product_counts st
    = insert_records shipment_info after
        (print (warning shipment_id) (insert_records shipment_info before st).1).1 /\
    process_shipping_data_1_and_2 rows_1 rows_2 st
    = (State (committed st)
             (store_all (emitted shipment_info product_counts) (pending st))
             (stdout st ++ (warning <$> missing shipment_info product_counts)),
       Ok tt).
Proof.
  intros H1 H2 Hnone Hocc.
  assert (exists shipment_info, load_shipment_info rows_2 [] = Ok shipment_info)
    as [shipment_info Hload].
  { apply load_shipment_info_Ok. eapply Forall_impl; [exact H2 |].
    by intros r ?%has_fields_2. }
  pose proof (load_shipment_info_other _ _ _ _ Hload Hnone) as Hget. simpl in Hget.
  destruct (count_products_shipment _ _ H1 Hocc)
    as (pc & before & products & after & Hc & -> & Hb & Ha & _).
  exists shipment_info, (before ++ (shipment_id, products) :: after),
    before, products, after.
  assert (emit shipment_info (shipment_id, products) = []) as Hemit.
  { unfold emit. simpl. by rewrite Hget. }
  assert (missing shipment_info [(shipment_id, products)] = [shipment_id]) as Hmiss.
  { unfold missing. csimpl. rewrite filter_cons, decide_True by done. done. }
  repeat (split; [done |]).
  split; [| split; [| split]].
  - by rewrite emitted_app, emitted_cons, Hemit.
  - by rewrite (missing_app _ before (_ :: after)),
      (missing_app _ [(shipment_id, products)] after), Hmiss.
  - rewrite !insert_records_eq. unfold print. simpl.
    rewrite emitted_app, emitted_cons, Hemit, store_all_app. simpl.
    rewrite (missing_app _ before (_ :: after)),
      (missing_app _ [(shipment_id, products)] after), Hmiss.
    rewrite !fmap_app. csimpl. by rewrite <- !app_assoc.
  - rewrite process_shipping_data_1_and_2_eq, Hload, Hc. apply insert_records_eq.
Qed.

Lemma missing_location_skipped_witness :
  process_shipping_data_1_and_2
    [fact "A1" "Bolt"; fact "Z9" "Nut"; fact "Z9" "Bolt"; fact "B2" "Nut"]
    [location "A1" "W2" "S2"; location "B2" "W3" "S3"]
    (connect empty_db)
  = (State empty_db
           (Database [ProductRow 1 "Bolt"; ProductRow 2 "Nut"]
                     [ShipmentRow 1 1 "W2" "S2"; ShipmentRow 2 1 "W3" "S3"])
           ["Warning: No origin/destination found for shipment Z9"],
     Ok tt).
Proof.
  destruct (missing_location_skipped
              [fact "A1" "Bolt"; fact "Z9" "Nut"; fact "Z9" "Bolt"; fact "B2" "Nut"]
              [location "A1" "W2" "S2"; location "B2" "W3" "S3"]
              "Z9" (connect empty_db))
    as (shipment_info & product_counts & before & products & after
        & Hload & Hcount & _ & _ & _ & _ & _ & _ & _ & Hrun).
  - solve_fields.
  - solve_fields.
  - repeat apply Forall_cons_2; try apply Forall_nil_2; by vm_compute.
  - exists "Nut". apply Exists_cons_tl, Exists_cons_hd. by vm_compute.
  - rewrite Hrun.
    vm_compute in Hload. vm_compute in Hcount.
    injection Hload as <-. injection Hcount as <-.
    reflexivity.
Defined.

(** ** The transaction *)

Lemma main_try_raise rows_0 rows_1 rows_2 st st' e :
  main_try rows_0 rows_1 rows_2 st = (st', Raise e) ->
  committed st' = committed st.
Proof.
  unfold main_try, bind, print, commit, count_product, count_shipment.
  rewrite process_shipping_data_0_eq. simpl.
  destruct (read_rows_0 rows_0).2; [by intros [= <- _] |].
  rewrite process_shipping_data_1_and_2_eq.
  destruct (load_shipment_info rows_2 []); [| by intros [= <- _]].
  destruct (count_products rows_1 []); [| by intros [= <- _]].
  rewrite insert_records_eq. done.
Qed.

Lemma main_eq rows_0 rows_1 rows_2 file :
  main rows_0 rows_1 rows_2 file
  = match main_try rows_0 rows_1 rows_2 (connect file) with
    | (st, Ok _) => (State (committed st) (committed st) (stdout st), Ok tt)
    | (st, Raise e) =>
        (State (committed st) (committed st) (stdout st ++ ["Error: " +:+ str e]),
         Raise e)
    end.
Proof.
  unfold main, try_finally, try_except.
  destruct (main_try rows_0 rows_1 rows_2 (connect file)) as [st [[]|e]]; done.
Qed.

(** [main] raises only what the processing raised. *)
Lemma main_raise_inv rows_0 rows_1 rows_2 file st' e :
  main rows_0 rows_1 rows_2 file = (st', Raise e) ->
  committed st' = file /\ pending st' = file /\
  exists st, main_try rows_0 rows_1 rows_2 (connect file) = (st, Raise e).
Proof.
  rewrite main_eq.
  destruct (main_try rows_0 rows_1 rows_2 (connect file)) as [st [[]|e']] eqn:Htry;
    [done |].
  apply main_try_raise in Htry. simpl in Htry.
  intros [= <- <-]. simpl. rewrite Htry. eauto.
Qed.

(** C5: when the processing raises an exception in some state [st], with
    whatever rows it has already inserted pending, [main] rolls back: the
    database file is as it was before the run, nothing is pending, the
    error is reported and the same exception is raised again. *)
Theorem main_atomic
    (rows_0 rows_1 rows_2 : list row) (file : database) (st : state) (e : exception) :
  main_try rows_0 rows_1 rows_2 (connect file) = (st, Raise e) ->
  committed st = file /\
  main rows_0 rows_1 rows_2 file
  = (State file file (stdout st ++ ["Error: " +:+ str e]), Raise e).
Proof.
  intros Htry. pose proof (main_try_raise _ _ _ _ _ _ Htry) as Hc. simpl in Hc.
  split; [done |]. by rewrite main_eq, Htry, Hc.
Qed.

Lemma main_atomic_witness :
  let bad := row_of [("origin_warehouse", "W1"); ("destination_store", "S1");
                     ("product", "Gadget"); ("product_quantity", "five")] in
  pending (main_try [widget_row; bad] [] [] (connect empty_db)).1
  = Database [ProductRow 1 "Widget"] [ShipmentRow 1 5 "W1" "S1"] /\
  main [widget_row; bad] [] [] empty_db
  = (State empty_db empty_db
           ["Processing shipping_data_0.csv...";
            "Error: invalid literal for int() with base 10: 'five'"],
     Raise (ValueError "invalid literal for int() with base 10: 'five'")).
Proof.
  intros bad. split; [reflexivity |].
  refine (proj2 (main_atomic [widget_row; bad] [] [] empty_db
                   (State empty_db
                          (Database [ProductRow 1 "Widget"] [ShipmentRow 1 5 "W1" "S1"])
                          ["Processing shipping_data_0.csv..."])
                   (ValueError "invalid literal for int() with base 10: 'five'") _)).
  vm_compute. reflexivity.
Defined.

(** ** Rows of shipping_data_0 *)

Lemma row_0_fields_Ok r c : row_0_fields r = Ok c <-> well_formed_0 r c.
Proof.
  unfold row_0_fields, well_formed_0, getitem. destruct c as [p q o d]. simpl.
  destruct (r !! "product") as [p'|]; simpl; [| by split; [| intros [? _]]].
  destruct (r !! "product_quantity") as [text|]; simpl;
    [| by split; [| intros (_ & (? & ? & _) & _)]].
  destruct (int text) as [q'|e] eqn:Hint; simpl.
  2:{ split; [done |]. intros (_ & (text' & [= <-] & Hq) & _). congruence. }
  destruct (r !! "origin_warehouse") as [o'|]; simpl;
    [| by split; [| intros (_ & _ & ? & _)]].
  destruct (r !! "destination_store") as [d'|]; simpl;
    [| by split; [| intros (_ & _ & _ & ?)]].
  split.
  - intros [= -> -> -> ->]. repeat split; try done. by exists text.
  - intros ([= ->] & (text' & [= <-] & Hq) & [= ->] & [= ->]). congruence.
Qed.






(** ** Quantities of the shipment rows *)

Lemma read_rows_0_prefix rows :
  Forall2 (fun r c => row_0_fields r = Ok c)
          (take (length (read_rows_0 rows).1) rows) (read_rows_0 rows).1.
Proof.
  induction rows as [|r rows IH]; simpl; [apply Forall2_nil_2 |].
  destruct (row_0_fields r) as [c|e] eqn:Hr; simpl; [| apply Forall2_nil_2].
  destruct (read_rows_0 rows) as [cs e]. simpl in *. by apply Forall2_cons_2.
Qed.

Lemma emitted_quantity shipment_info rows_1 product_counts c :
  count_products rows_1 [] = Ok product_counts ->
  c ∈ emitted shipment_info product_counts -> (1 <= c_quantity c)%Z.
Proof.
  intros Hc Hin. rewrite emitted_entries in Hin.
  apply list_elem_of_omap in Hin as ([[s p] q] & Hin & Hsome).
  assert (counts_wf []) as Hwf0 by (split; [apply NoDup_nil_2 | apply Forall_nil_2]).
  apply (elem_of_entries _ _ _ _ (count_products_wf _ _ _ Hc Hwf0)) in Hin.
  rewrite (count_products_entry _ _ _ s p Hc) in Hin. simpl in Hin.
  pose proof (occurrences_nonneg s p rows_1).
  destruct (decide (occurrences s p rows_1 = 0%Z)); [done |].
  destruct (dict_get s shipment_info) as [i|]; [| done].
  simpl in Hsome. injection Hsome as <-. injection Hin as <-. simpl. lia.
Qed.

(** C7 (as amended): the shipment rows that the join of shipping_data_1 and
    shipping_data_2 appends have a quantity of at least 1; the rows that
    shipping_data_0 appends have the integer written in the
    [product_quantity] field of their row, whatever its sign. *)
Theorem shipment_quantities (rows_0 rows_1 rows_2 : list row) (st : state) :
  (exists new,
     shipment (pending (process_shipping_data_1_and_2 rows_1 rows_2 st).1)
     = shipment (pending st) ++ new /\
     Forall (fun s => (1 <= quantity s)%Z) new) /\
  (exists new,
     shipment (pending (process_shipping_data_0 rows_0 st).1)
     = shipment (pending st) ++ new /\
     Forall2 (fun r s =>
                exists text, r !! "product_quantity" = Some text /\
                             int text = Ok (quantity s))
             (take (length new) rows_0) new).
Proof.
  split.
  - rewrite process_shipping_data_1_and_2_eq.
    destruct (load_shipment_info rows_2 []) as [shipment_info|e].
    2:{ exists []. split; [by rewrite app_nil_r | apply Forall_nil_2]. }
    destruct (count_products rows_1 []) as [product_counts|e] eqn:Hc.
    2:{ exists []. split; [by rewrite app_nil_r | apply Forall_nil_2]. }
    rewrite insert_records_eq. simpl.
    destruct (store_all_shipment (emitted shipment_info product_counts) (pending st))
      as [_ Hs].
    eexists. split; [exact Hs |].
    apply Forall_fmap, Forall_forall. intros c Hin. simpl.
    by apply (emitted_quantity shipment_info rows_1 product_counts).
  - rewrite process_shipping_data_0_eq. simpl.
    destruct (store_all_shipment (read_rows_0 rows_0).1 (pending st)) as [_ Hs].
    eexists. split; [exact Hs |].
    rewrite length_fmap. apply Forall2_fmap_r.
    eapply Forall2_impl; [apply read_rows_0_prefix |].
    intros r c Hr. apply row_0_fields_Ok in Hr as (_ & Hq & _). exact Hq.
Qed.

(** C7 as stated fails on shipping_data_0: a row whose [product_quantity]
    is [-3] is inserted, and committed, with the quantity -3. *)
Lemma shipment_quantity_not_positive :
  let r := row_of [("origin_warehouse", "W1"); ("destination_store", "S1");
                   ("product", "Widget"); ("on_time", "true");
                   ("product_quantity", "-3"); ("driver_identifier", "D1")] in
  (main [r] [] [] empty_db).2 = Ok tt /\
  shipment (committed (main [r] [] [] empty_db).1) = [ShipmentRow 1 (-3) "W1" "S1"] /\
  ~ Forall (fun s => (0 < quantity s)%Z)
           (shipment (committed (main [r] [] [] empty_db).1)).
Proof.
  intros r. split; [reflexivity |]. split; [reflexivity |].
  intros Hall. vm_compute in Hall. apply Forall_cons in Hall as [Hq _]. done.
Qed.

(** ** Malformed rows of shipping_data_1 and shipping_data_2 *)

Lemma has_or_lacks keys (r : row) : has_fields keys r \/ lacks_field keys r.
Proof.
  unfold has_fields, lacks_field. induction keys as [|key keys IH].
  - left. apply Forall_nil_2.
  - destruct (r !! key) as [v|] eqn:Hk.
    + destruct IH as [IH|IH].
      * left. apply Forall_cons_2; [by rewrite Hk | done].
      * right. by apply Exists_cons_tl.
    + right. by apply Exists_cons_hd.
Qed.

Lemma has_not_lacks keys (r : row) : has_fields keys r -> lacks_field keys r -> False.
Proof.
  unfold has_fields, lacks_field. rewrite Forall_forall, Exists_exists.
  intros Hhas (key & Hin & Hnone). destruct (Hhas key Hin) as [v Hv]. congruence.
Qed.

Lemma all_or_some keys (rows : list row) :
  Forall (has_fields keys) rows \/ Exists (lacks_field keys) rows.
Proof.
  induction rows as [|r rows IH].
  - left. apply Forall_nil_2.
  - destruct (has_or_lacks keys r) as [Hr|Hr].
    + destruct IH as [IH|IH].
      * left. by apply Forall_cons_2.
      * right. by apply Exists_cons_tl.
    + right. by apply Exists_cons_hd.
Qed.

Lemma load_shipment_info_Raise rows acc :
  Exists (lacks_field fields_2) rows ->
  exists key, key ∈ fields_2 /\ load_shipment_info rows acc = Raise (KeyError key).
Proof.
  intros Hex. revert acc. induction Hex as [r rows Hr|r rows _ IH]; intros acc.
  - simpl. unfold getitem, fields_2.
    destruct (r !! "shipment_identifier") as [s|] eqn:Hs; simpl.
    2:{ eexists. split; [| done]. solve_elem. }
    destruct (r !! "origin_warehouse") as [o|] eqn:Ho; simpl.
    2:{ eexists. split; [| done]. solve_elem. }
    destruct (r !! "destination_store") as [d|] eqn:Hd; simpl.
    2:{ eexists. split; [| done]. solve_elem. }
    exfalso. unfold lacks_field, fields_2 in Hr.
    rewrite !Exists_cons, Exists_nil in Hr. intuition congruence.
  - simpl. unfold getitem, fields_2.
    destruct (r !! "shipment_identifier") as [s|] eqn:Hs; simpl.
    2:{ eexists. split; [| done]. solve_elem. }
    destruct (r !! "origin_warehouse") as [o|] eqn:Ho; simpl.
    2:{ eexists. split; [| done]. solve_elem. }
    destruct (r !! "destination_store") as [d|] eqn:Hd; simpl.
    2:{ eexists. split; [| done]. solve_elem. }
    apply IH.
Qed.

Lemma count_products_Raise rows acc :
  Exists (lacks_field fields_1) rows ->
  exists key, key ∈ fields_1 /\ count_products rows acc = Raise (KeyError key).
Proof.
  intros Hex. revert acc. induction Hex as [r rows Hr|r rows _ IH]; intros acc.
  - simpl. unfold getitem, fields_1.
    destruct (r !! "shipment_identifier") as [s|] eqn:Hs; simpl.
    2:{ eexists. split; [| done]. solve_elem. }
    destruct (r !! "product") as [p|] eqn:Hp; simpl.
    2:{ eexists. split; [| done]. solve_elem. }
    exfalso. unfold lacks_field, fields_1 in Hr.
    rewrite !Exists_cons, Exists_nil in Hr. intuition congruence.
  - simpl. unfold getitem, fields_1.
    destruct (r !! "shipment_identifier") as [s|] eqn:Hs; simpl.
    2:{ eexists. split; [| done]. solve_elem. }
    destruct (r !! "product") as [p|] eqn:Hp; simpl.
    2:{ eexists. split; [| done]. solve_elem. }
    apply IH.
Qed.



(** ** The examples of the specification and of [int] *)

Example int_5 : int "5" = Ok 5%Z. Proof. reflexivity. Qed.
Example int_neg : int " -12 " = Ok (-12)%Z. Proof. reflexivity. Qed.
Example int_underscore : int "1_000" = Ok 1000%Z. Proof. reflexivity. Qed.
Example int_leading_zero : int "007" = Ok 7%Z. Proof. reflexivity. Qed.
Example int_empty :
  int "" = Raise (ValueError "invalid literal for int() with base 10: ''").
Proof. reflexivity. Qed.
Example int_float :
  int "5.0" = Raise (ValueError "invalid literal for int() with base 10: '5.0'").
Proof. reflexivity. Qed.
Example int_inner_space :
  int "1 2" = Raise (ValueError "invalid literal for int() with base 10: '1 2'").
Proof. reflexivity. Qed.
Example int_double_underscore :
  int "1__2" = Raise (ValueError "invalid literal for int() with base 10: '1__2'").
Proof. reflexivity. Qed.
Example int_trailing_underscore :
  int "1_" = Raise (ValueError "invalid literal for int() with base 10: '1_'").
Proof. reflexivity. Qed.
Example int_separator_28 :
  int (String (ascii_of_nat 28) "5")
  = Raise (ValueError "invalid literal for int() with base 10: '\x1c5'").
Proof. reflexivity. Qed.
Example int_no_break_space : int (String (ascii_of_nat 160) "5") = Ok 5%Z.
Proof. reflexivity. Qed.
Example int_quote :
  int "it's"
  = Raise (ValueError
             (String.append "invalid literal for int() with base 10: "
                (string_of_list_ascii
                   [double_quote; "i"; "t"; "'"; "s"; double_quote]%char))).
Proof. reflexivity. Qed.

Example scenario_0 :
  main [widget_row] [] [] empty_db
  = (State (Database [ProductRow 1 "Widget"] [ShipmentRow 1 5 "W1" "S1"])
           (Database [ProductRow 1 "Widget"] [ShipmentRow 1 5 "W1" "S1"])
           ["Processing shipping_data_0.csv...";
            "Processing shipping_data_1.csv with shipping_data_2.csv...";
            "Database populated successfully!";
            newline +:+ "Summary:";
            "  - Total products: 1";
            "  - Total shipments: 1"],
     Ok tt).
Proof. vm_compute. reflexivity. Qed.

Example scenario_1_2 :
  pending (main [] [fact "A1" "Bolt"; fact "A1" "Bolt"; fact "A1" "Nut"]
                [location "A1" "W2" "S2"] empty_db).1
  = Database [ProductRow 1 "Bolt"; ProductRow 2 "Nut"]
             [ShipmentRow 1 2 "W2" "S2"; ShipmentRow 2 1 "W2" "S2"].
Proof. vm_compute. reflexivity. Qed.

(** ** More on shipping_data_0 *)

Lemma select_id_None name tbl : select_id name tbl = None <-> name ∉ p_name <$> tbl.
Proof.
  induction tbl as [|r tbl IH]; csimpl.
  - split; [intros _; apply not_elem_of_nil | done].
  - rewrite not_elem_of_cons. destruct (decide (p_name r = name)) as [Heq|Hne].
    + split; [done | intros [? _]; congruence].
    + rewrite IH. split; [intros ?; split; [congruence | done] | by intros [_ ?]].
Qed.

Lemma read_rows_0_well_formed rows cs :
  Forall2 well_formed_0 rows cs -> read_rows_0 rows = (cs, None).
Proof.
  induction 1 as [|r c rows cs Hr _ IH]; simpl; [done |].
  apply row_0_fields_Ok in Hr. by rewrite Hr, IH.
Qed.

Lemma read_rows_0_stops good cs bad rest e :
  Forall2 well_formed_0 good cs ->
  row_0_fields bad = Raise e ->
  read_rows_0 (good ++ bad :: rest) = (cs, Some e).
Proof.
  intros Hgood Hbad. induction Hgood as [|r c rows cs Hr _ IH]; simpl.
  - by rewrite Hbad.
  - apply row_0_fields_Ok in Hr. by rewrite Hr, IH.
Qed.

(** X1: on rows that all have the four fields, with a numeral in the
    signed 64-bit range as quantity, [process_shipping_data_0] returns
    normally and appends one shipment row per input row, in the order of
    the rows, with the quantity, origin and destination of the row and, as
    product id, the id that the row's product name has in the product
    table at the end. *)
Theorem process_shipping_data_0_rows (rows : list row) (cs : list canonical) (st : state) :
  Forall2 well_formed_0 rows cs ->
  Forall (fun c => int64 (c_quantity c)) cs ->
  exists st',
    process_shipping_data_0 rows st = (st', Ok tt) /\
    committed st' = committed st /\ stdout st' = stdout st /\
    shipment (pending st')
    = shipment (pending st) ++ (resolve (product (pending st')) <$> cs) /\
    Forall (fun c => is_Some (select_id (c_product_name c) (product (pending st')))) cs /\
    length (shipment (pending st')) = (length (shipment (pending st)) + length rows)%nat.
Proof.
  intros Hrows _. eexists. rewrite process_shipping_data_0_eq.
  rewrite (read_rows_0_well_formed _ _ Hrows). simpl.
  split; [reflexivity |]. simpl.
  destruct (store_all_shipment cs (pending st)) as [Hsome Hs].
  repeat (split; [done |]).
  rewrite Hs, length_app, length_fmap. by rewrite (Forall2_length _ _ _ Hrows).
Qed.

Lemma process_shipping_data_0_rows_witness :
  process_shipping_data_0
    [widget_row;
     row_of [("origin_warehouse", "W7"); ("destination_store", "S7");
             ("product", "Widget"); ("product_quantity", "2")]]
    (connect empty_db)
  = (State empty_db
           (Database [ProductRow 1 "Widget"]
                     [ShipmentRow 1 5 "W1" "S1"; ShipmentRow 1 2 "W7" "S7"])
           [],
     Ok tt).
Proof.
  destruct (process_shipping_data_0_rows
              [widget_row;
               row_of [("origin_warehouse", "W7"); ("destination_store", "S7");
                       ("product", "Widget"); ("product_quantity", "2")]]
              [Canonical "Widget" 5 "W1" "S1"; Canonical "Widget" 2 "W7" "S7"]
              (connect empty_db)) as (st' & Hrun & _).
  - repeat apply Forall2_cons_2; try apply Forall2_nil_2.
    + repeat split; try reflexivity. exists "5". split; reflexivity.
    + repeat split; try reflexivity. exists "2". split; reflexivity.
  - solve_int64.
  - rewrite Hrun. vm_compute in Hrun. by injection Hrun as <-.
Defined.

(** X2: [process_shipping_data_0] stops at the first row that lacks a
    field or whose quantity is no numeral: the rows before it (well formed,
    quantities in the signed 64-bit range) have been inserted and stay
    pending, the exception of that row is raised, and the rows after it
    are not read (they do not matter to the outcome). *)
Theorem process_shipping_data_0_stops
    (good rest : list row) (cs : list canonical) (bad : row) (e : exception)
    (st : state) :
  Forall2 well_formed_0 good cs ->
  Forall (fun c => int64 (c_quantity c)) cs ->
  row_0_fields bad = Raise e ->
  process_shipping_data_0 (good ++ bad :: rest) st
  = (State (committed st) (store_all cs (pending st)) (stdout st), Raise e) /\
  process_shipping_data_0 (good ++ bad :: rest) st
  = process_shipping_data_0 (good ++ [bad]) st /\
  shipment (store_all cs (pending st))
  = shipment (pending st) ++ (resolve (product (store_all cs (pending st))) <$> cs).
Proof.
  intros Hgood _ Hbad.
  rewrite !process_shipping_data_0_eq.
  rewrite !(read_rows_0_stops _ _ _ _ _ Hgood Hbad). simpl.
  split; [done |]. split; [done |]. apply store_all_shipment.
Qed.

Lemma process_shipping_data_0_stops_witness :
  process_shipping_data_0
    ([widget_row] ++ row_of [("product", "Gadget")] :: [widget_row])
    (connect empty_db)
  = (State empty_db
           (Database [ProductRow 1 "Widget"] [ShipmentRow 1 5 "W1" "S1"]) [],
     Raise (KeyError "product_quantity")).
Proof.
  refine (proj1 (process_shipping_data_0_stops
                   [widget_row] [widget_row] [Canonical "Widget" 5 "W1" "S1"]
                   (row_of [("product", "Gadget")]) (KeyError "product_quantity")
                   (connect empty_db) _ _ _)).
  - repeat apply Forall2_cons_2; try apply Forall2_nil_2.
    repeat split; try reflexivity. exists "5". split; reflexivity.
  - solve_int64.
  - reflexivity.
Defined.

(** ** The whole run *)

Lemma read_rows_0_None rows :
  (read_rows_0 rows).2 = None -> Forall2 well_formed_0 rows (read_rows_0 rows).1.
Proof.
  induction rows as [|r rows IH]; simpl; [intros _; apply Forall2_nil_2 |].
  destruct (row_0_fields r) as [c|e] eqn:Hr; [| done].
  destruct (read_rows_0 rows) as [cs e]. simpl in *.
  intros He. apply Forall2_cons_2; [by apply row_0_fields_Ok | by apply IH].
Qed.

Lemma main_try_eq rows_0 rows_1 rows_2 st :
  main_try rows_0 rows_1 rows_2 st
  = let db0 := store_all (read_rows_0 rows_0).1 (pending st) in
    let out0 := stdout st ++ ["Processing shipping_data_0.csv..."] in
    let out1 := out0 ++ ["Processing shipping_data_1.csv with shipping_data_2.csv..."] in
    match (read_rows_0 rows_0).2 with
    | Some e => (State (committed st) db0 out0, Raise e)
    | None =>
        match load_shipment_info rows_2 [] with
        | Raise e => (State (committed st) db0 out1, Raise e)
        | Ok shipment_info =>
            match count_products rows_1 [] with
            | Raise e => (State (committed st) db0 out1, Raise e)
            | Ok product_counts =>
                let db := store_all (emitted shipment_info product_counts) db0 in
                (State db db
                   (out1 ++ (warning <$> missing shipment_info product_counts)
                      ++ ["Database populated successfully!";
                          newline +:+ "Summary:";
                          "  - Total products: " +:+ pretty (length (product db));
                          "  - Total shipments: " +:+ pretty (length (shipment db))]),
                 Ok tt)
            end
        end
    end.
Proof.
  unfold main_try, bind, print, commit, count_product, count_shipment.
  rewrite process_shipping_data_0_eq. simpl.
  destruct (read_rows_0 rows_0).2; [done |].
  rewrite process_shipping_data_1_and_2_eq.
  destruct (load_shipment_info rows_2 []); [| done].
  destruct (count_products rows_1 []); [| done].
  rewrite insert_records_eq. simpl. by rewrite <- !app_assoc.
Qed.

(** X3: on well-formed inputs, the quantities of shipping_data_0 being
    in the signed 64-bit range, [main] returns normally, everything it
    stored is committed and nothing stays pending: the database holds the
    tuples of shipping_data_0 followed by the tuples of the join, and the
    output is the two progress lines, one warning per shipment without
    location, the success line and the summary with the sizes of the two
    tables. *)
Theorem main_success
    (rows_0 rows_1 rows_2 : list row) (cs : list canonical) (file : database) :
  Forall2 well_formed_0 rows_0 cs ->
  Forall (fun c => int64 (c_quantity c)) cs ->
  Forall (has_fields fields_1) rows_1 ->
  Forall (has_fields fields_2) rows_2 ->
  exists shipment_info product_counts,
    load_shipment_info rows_2 [] = Ok shipment_info /\
    count_products rows_1 [] = Ok product_counts /\
    let db := store_all (cs ++ emitted shipment_info product_counts) file in
    main rows_0 rows_1 rows_2 file
    = (State db db
         (["Processing shipping_data_0.csv...";
           "Processing shipping_data_1.csv with shipping_data_2.csv..."]
            ++ (warning <$> missing shipment_info product_counts)
            ++ ["Database populated successfully!";
                newline +:+ "Summary:";
                "  - Total products: " +:+ pretty (length (product db));
                "  - Total shipments: " +:+ pretty (length (shipment db))]),
       Ok tt) /\
    shipment db
    = shipment file
        ++ (resolve (product db) <$> (cs ++ emitted shipment_info product_counts)).
Proof.
  intros H0 _ H1 H2.
  assert (exists shipment_info, load_shipment_info rows_2 [] = Ok shipment_info)
    as [shipment_info Hload].
  { apply load_shipment_info_Ok. eapply Forall_impl; [exact H2 |].
    by intros r ?%has_fields_2. }
  assert (exists pc, count_products rows_1 [] = Ok pc) as [pc Hc].
  { apply count_products_Ok. eapply Forall_impl; [exact H1 |].
    by intros r ?%has_fields_1. }
  exists shipment_info, pc. split; [done |]. split; [done |].
  split; [| apply store_all_shipment].
  rewrite main_eq, main_try_eq, (read_rows_0_well_formed _ _ H0), Hload, Hc.
  simpl. by rewrite store_all_app.
Qed.

Lemma main_success_witness :
  main [widget_row]
       [fact "A1" "Bolt"; fact "Z9" "Nut"; fact "A1" "Bolt"]
       [location "A1" "W2" "S2"] empty_db
  = (State (Database [ProductRow 1 "Widget"; ProductRow 2 "Bolt"]
                     [ShipmentRow 1 5 "W1" "S1"; ShipmentRow 2 2 "W2" "S2"])
           (Database [ProductRow 1 "Widget"; ProductRow 2 "Bolt"]
                     [ShipmentRow 1 5 "W1" "S1"; ShipmentRow 2 2 "W2" "S2"])
           ["Processing shipping_data_0.csv...";
            "Processing shipping_data_1.csv with shipping_data_2.csv...";
            "Warning: No origin/destination found for shipment Z9";
            "Database populated successfully!";
            newline +:+ "Summary:";
            "  - Total products: 2";
            "  - Total shipments: 2"],
     Ok tt).
Proof.
  destruct (main_success [widget_row]
              [fact "A1" "Bolt"; fact "Z9" "Nut"; fact "A1" "Bolt"]
              [location "A1" "W2" "S2"]
              [Canonical "Widget" 5 "W1" "S1"] empty_db)
    as (shipment_info & product_counts & Hload & Hcount & Hmain & _).
  - repeat apply Forall2_cons_2; try apply Forall2_nil_2.
    repeat split; try reflexivity. exists "5". split; reflexivity.
  - solve_int64.
  - solve_fields.
  - solve_fields.
  - rewrite Hmain. vm_compute in Hload. vm_compute in Hcount.
    injection Hload as <-. injection Hcount as <-. reflexivity.
Defined.

(** X4: whatever the inputs, [main] leaves nothing pending, and it is all
    or nothing: when it raises, the database file is what it was; when it
    returns, every row of shipping_data_0 was well formed, both tables of
    the join were read, and the file holds all their tuples. *)
Theorem main_all_or_nothing (rows_0 rows_1 rows_2 : list row) (file : database) :
  pending (main rows_0 rows_1 rows_2 file).1
  = committed (main rows_0 rows_1 rows_2 file).1 /\
  match (main rows_0 rows_1 rows_2 file).2 with
  | Raise e => committed (main rows_0 rows_1 rows_2 file).1 = file
  | Ok _ =>
      exists cs shipment_info product_counts,
        Forall2 well_formed_0 rows_0 cs /\
        load_shipment_info rows_2 [] = Ok shipment_info /\
        count_products rows_1 [] = Ok product_counts /\
        committed (main rows_0 rows_1 rows_2 file).1
        = store_all (cs ++ emitted shipment_info product_counts) file
  end.
Proof.
  rewrite main_eq, main_try_eq. simpl.
  destruct (read_rows_0 rows_0).2 as [e|] eqn:H0; [done |].
  destruct (load_shipment_info rows_2 []) as [shipment_info|e] eqn:Hload; [| done].
  destruct (count_products rows_1 []) as [pc|e] eqn:Hc; [| done].
  simpl. split; [done |].
  exists (read_rows_0 rows_0).1, shipment_info, pc.
  split; [by apply read_rows_0_None |]. repeat (split; [done |]).
  by rewrite store_all_app.
Qed.

(** ** Invariants of the database *)

Section Preserved.
Variable P : database -> Prop.
Hypothesis store_preserves : forall db c, P db -> P (store db c).

Lemma store_all_preserves cs db : P db -> P (store_all cs db).
Proof.
  revert db. induction cs as [|c cs IH]; intros db Hdb; [done |].
  apply (IH (store db c)). by apply store_preserves.
Qed.

(** What every write of the program keeps true of the pending database
    holds after each of the two processing functions, raised or not, and
    of the database file after [main]. *)
Lemma runs_preserve rows_0 rows_1 rows_2 :
  (forall st, P (pending st) ->
              P (pending (process_shipping_data_0 rows_0 st).1) /\
              P (pending (process_shipping_data_1_and_2 rows_1 rows_2 st).1)) /\
  (forall file, P file -> P (committed (main rows_0 rows_1 rows_2 file).1)).
Proof.
  split.
  - intros st Hst. split.
    + rewrite process_shipping_data_0_eq. simpl. by apply store_all_preserves.
    + rewrite process_shipping_data_1_and_2_eq.
      destruct (load_shipment_info rows_2 []); [| done].
      destruct (count_products rows_1 []); [| done].
      rewrite insert_records_eq. simpl. by apply store_all_preserves.
  - intros file Hfile. rewrite main_eq, main_try_eq. simpl.
    destruct (read_rows_0 rows_0).2; [done |].
    destruct (load_shipment_info rows_2 []); [| done].
    destruct (count_products rows_1 []); [| done].
    simpl. by do 2 apply store_all_preserves.
Qed.
End Preserved.

Lemma store_keys_unique db c :
  NoDup (p_name <$> product db) /\ NoDup (p_id <$> product db) ->
  NoDup (p_name <$> product (store db c)) /\ NoDup (p_id <$> product (store db c)).
Proof.
  intros [Hn Hi]. unfold store.
  destruct (select_id (c_product_name c) (product db)) as [i|] eqn:Hsel; simpl;
    [done |].
  rewrite !fmap_app. csimpl. split.
  - apply NoDup_app. split; [done |]. split; [| apply NoDup_singleton].
    intros n Hin Hin'. apply list_elem_of_singleton in Hin' as ->.
    by apply select_id_None in Hsel.
  - apply NoDup_app. split; [done |]. split; [| apply NoDup_singleton].
    intros j Hin Hin'. apply list_elem_of_singleton in Hin' as ->.
    by apply next_rowid_fresh in Hin.
Qed.

(** X5: the program keeps the keys of the product table unique.  If no two
    product rows share a name and no two share an id, this is still so of
    the pending table after [process_shipping_data_0] and after
    [process_shipping_data_1_and_2], raised or not, and of the database
    file after [main]. *)
Theorem product_keys_unique (rows_0 rows_1 rows_2 : list row) :
  (forall st,
     NoDup (p_name <$> product (pending st)) /\ NoDup (p_id <$> product (pending st)) ->
     (NoDup (p_name <$> product (pending (process_shipping_data_0 rows_0 st).1)) /\
      NoDup (p_id <$> product (pending (process_shipping_data_0 rows_0 st).1))) /\
     (NoDup (p_name <$> product
               (pending (process_shipping_data_1_and_2 rows_1 rows_2 st).1)) /\
      NoDup (p_id <$> product
               (pending (process_shipping_data_1_and_2 rows_1 rows_2 st).1)))) /\
  (forall file,
     NoDup (p_name <$> product file) /\ NoDup (p_id <$> product file) ->
     NoDup (p_name <$> product (committed (main rows_0 rows_1 rows_2 file).1)) /\
     NoDup (p_id <$> product (committed (main rows_0 rows_1 rows_2 file).1))).
Proof.
  apply (runs_preserve
           (fun db => NoDup (p_name <$> product db) /\ NoDup (p_id <$> product db))
           store_keys_unique).
Qed.

Lemma product_keys_unique_witness :
  let file := Database [ProductRow 7 "Bolt"; ProductRow 3 "Nut"]
                       [ShipmentRow 7 4 "W0" "S0"] in
  NoDup (p_name <$> product
           (committed (main [widget_row] [fact "A1" "Bolt"]
                            [location "A1" "W2" "S2"] file).1)) /\
  NoDup (p_id <$> product
           (committed (main [widget_row] [fact "A1" "Bolt"]
                            [location "A1" "W2" "S2"] file).1)).
Proof.
  intros file.
  apply (proj2 (product_keys_unique [widget_row] [fact "A1" "Bolt"]
                  [location "A1" "W2" "S2"]) file).
  split; apply (bool_decide_unpack _); vm_compute; exact I.
Defined.

Lemma store_references db c :
  Forall (fun s => product_id s ∈ p_id <$> product db) (shipment db) ->
  Forall (fun s => product_id s ∈ p_id <$> product (store db c)) (shipment (store db c)).
Proof.
  intros Hall. unfold store.
  destruct (select_id (c_product_name c) (product db)) as [i|] eqn:Hsel; simpl.
  - apply Forall_app. split; [done |]. apply Forall_singleton. simpl.
    apply select_id_elem in Hsel. apply list_elem_of_fmap. by eexists (ProductRow _ _).
  - apply Forall_app. split.
    + eapply Forall_impl; [exact Hall |]. intros s Hs. simpl in Hs.
      rewrite fmap_app. apply elem_of_app. by left.
    + apply Forall_singleton. simpl. rewrite fmap_app. apply elem_of_app. right.
      csimpl. apply list_elem_of_here.
Qed.

(** X6: the program keeps the shipment table consistent with the product
    table.  If the product id of every shipment row is the id of a product
    row, this is still so of the pending tables after each processing
    function, raised or not, and of the database file after [main]. *)
Theorem shipments_reference_products (rows_0 rows_1 rows_2 : list row) :
  (forall st,
     Forall (fun s => product_id s ∈ p_id <$> product (pending st))
            (shipment (pending st)) ->
     Forall (fun s => product_id s
                      ∈ p_id <$> product (pending (process_shipping_data_0 rows_0 st).1))
            (shipment (pending (process_shipping_data_0 rows_0 st).1)) /\
     Forall (fun s => product_id s
                      ∈ p_id <$> product
                          (pending (process_shipping_data_1_and_2 rows_1 rows_2 st).1))
            (shipment (pending (process_shipping_data_1_and_2 rows_1 rows_2 st).1))) /\
  (forall file,
     Forall (fun s => product_id s ∈ p_id <$> product file) (shipment file) ->
     Forall (fun s => product_id s
                      ∈ p_id <$> product (committed (main rows_0 rows_1 rows_2 file).1))
            (shipment (committed (main rows_0 rows_1 rows_2 file).1))).
Proof.
  apply (runs_preserve
           (fun db => Forall (fun s => product_id s ∈ p_id <$> product db) (shipment db))
           store_references).
Qed.

Lemma shipments_reference_products_witness :
  let file := Database [ProductRow 7 "Bolt"; ProductRow 3 "Nut"]
                       [ShipmentRow 7 4 "W0" "S0"] in
  Forall (fun s => product_id s
                   ∈ p_id <$> product
                       (committed (main [widget_row] [fact "A1" "Bolt"]
                                        [location "A1" "W2" "S2"] file).1))
         (shipment (committed (main [widget_row] [fact "A1" "Bolt"]
                                    [location "A1" "W2" "S2"] file).1)).
Proof.
  intros file.
  apply (proj2 (shipments_reference_products [widget_row] [fact "A1" "Bolt"]
                  [location "A1" "W2" "S2"]) file).
  apply Forall_singleton. simpl. solve_elem.
Defined.

Lemma store_extends (db0 db : database) c :
  product db0 `prefix_of` product db /\ shipment db0 `prefix_of` shipment db ->
  product db0 `prefix_of` product (store db c) /\
  shipment db0 `prefix_of` shipment (store db c).
Proof.
  intros [Hp Hs]. unfold store.
  destruct (select_id (c_product_name c) (product db)); simpl.
  - split; [done |]. by apply prefix_app_r.
  - split; by apply prefix_app_r.
Qed.

Lemma append_only_prefixes (rows_0 rows_1 rows_2 : list row) (st : state)
    (file : database) :
  (product (pending st)
     `prefix_of` product (pending (process_shipping_data_0 rows_0 st).1) /\
   shipment (pending st)
     `prefix_of` shipment (pending (process_shipping_data_0 rows_0 st).1)) /\
  (product (pending st)
     `prefix_of` product (pending (process_shipping_data_1_and_2 rows_1 rows_2 st).1) /\
   shipment (pending st)
     `prefix_of` shipment (pending (process_shipping_data_1_and_2 rows_1 rows_2 st).1)) /\
  (product file `prefix_of` product (committed (main rows_0 rows_1 rows_2 file).1) /\
   shipment file `prefix_of` shipment (committed (main rows_0 rows_1 rows_2 file).1)).
Proof.
  pose proof (runs_preserve
                (fun db => product (pending st) `prefix_of` product db /\
                           shipment (pending st) `prefix_of` shipment db)
                (store_extends (pending st)) rows_0 rows_1 rows_2) as [Hrun _].
  pose proof (runs_preserve
                (fun db => product file `prefix_of` product db /\
                           shipment file `prefix_of` shipment db)
                (store_extends file) rows_0 rows_1 rows_2) as [_ Hmain].
  destruct (Hrun st) as [H0 H12]; [done |].
  split; [done |]. split; [done |]. by apply Hmain.
Qed.

(** X7: the program only appends.  The rows that the two tables held
    before are still there, unchanged and in the same places, after each
    processing function, raised or not, and after [main]: no product or
    shipment row is ever updated, moved or deleted. *)
Theorem tables_append_only (rows_0 rows_1 rows_2 : list row) (st : state)
    (file : database) :
  (product (pending st)
     `prefix_of` product (pending (process_shipping_data_0 rows_0 st).1) /\
   shipment (pending st)
     `prefix_of` shipment (pending (process_shipping_data_0 rows_0 st).1)) /\
  (product (pending st)
     `prefix_of` product (pending (process_shipping_data_1_and_2 rows_1 rows_2 st).1) /\
   shipment (pending st)
     `prefix_of` shipment (pending (process_shipping_data_1_and_2 rows_1 rows_2 st).1)) /\
  (product file `prefix_of` product (committed (main rows_0 rows_1 rows_2 file).1) /\
   shipment file `prefix_of` shipment (committed (main rows_0 rows_1 rows_2 file).1)).
Proof. apply append_only_prefixes. Qed.

(** X8: a product keeps its id.  A name that [get_or_create_product] would
    resolve to [i] before a run resolves to the same [i] after each
    processing function and after [main]. *)
Theorem product_ids_stable (rows_0 rows_1 rows_2 : list row) (st : state)
    (file : database) (name : string) (i : Z) :
  (select_id name (product (pending st)) = Some i ->
   select_id name (product (pending (process_shipping_data_0 rows_0 st).1)) = Some i /\
   select_id name (product (pending (process_shipping_data_1_and_2 rows_1 rows_2 st).1))
   = Some i) /\
  (select_id name (product file) = Some i ->
   select_id name (product (committed (main rows_0 rows_1 rows_2 file).1)) = Some i).
Proof.
  destruct (append_only_prefixes rows_0 rows_1 rows_2 st file)
    as ([[k0 ->] _] & [[k12 ->] _] & [[km ->] _]).
  split.
  - intros Hsel. split; by apply select_id_app_Some.
  - intros Hsel. by apply select_id_app_Some.
Qed.

Lemma product_ids_stable_witness :
  let file := Database [ProductRow 7 "Bolt"; ProductRow 3 "Nut"]
                       [ShipmentRow 7 4 "W0" "S0"] in
  select_id "Bolt"
    (product (committed (main [widget_row] [fact "A1" "Bolt"]
                              [location "A1" "W2" "S2"] file).1))
  = Some 7%Z.
Proof.
  intros file.
  apply (proj2 (product_ids_stable [widget_row] [fact "A1" "Bolt"]
                  [location "A1" "W2" "S2"] (connect file) file "Bolt" 7)).
  reflexivity.
Defined.

(** ** The products a run creates *)

Lemma store_all_new_products cs db :
  exists new,
    product (store_all cs db) = product db ++ new /\
    NoDup (p_name <$> new) /\
    forall n, n ∈ p_name <$> new <->
              n ∈ c_product_name <$> cs /\ n ∉ p_name <$> product db.
Proof.
  revert db. induction cs as [|c cs IH]; intros db.
  - exists []. simpl. rewrite app_nil_r. split; [done |].
    split; [apply NoDup_nil_2 |]. intros n. csimpl. rewrite !elem_of_nil. tauto.
  - change (store_all (c :: cs) db) with (store_all cs (store db c)).
    destruct (IH (store db c)) as (new & Hnew & Hnd & Hin). rewrite Hnew.
    unfold store in *.
    destruct (select_id (c_product_name c) (product db)) as [i|] eqn:Hsel;
      simpl in *.
    + exists new. split; [done |]. split; [done |].
      intros n. rewrite Hin. csimpl. rewrite elem_of_cons.
      split; [tauto |]. intros [[->|Hn] Hnot]; [| done].
      exfalso. apply Hnot. apply select_id_elem in Hsel.
      apply list_elem_of_fmap. by eexists (ProductRow _ _).
    + apply select_id_None in Hsel.
      exists (ProductRow (next_rowid (product db)) (c_product_name c) :: new).
      split; [by rewrite <- app_assoc |].
      split.
      * csimpl. apply NoDup_cons. split; [| done].
        intros Hc. apply Hin in Hc as [_ Hc]. apply Hc.
        rewrite fmap_app. apply elem_of_app. right. csimpl. apply list_elem_of_here.
      * intros n. csimpl. rewrite !elem_of_cons, Hin, fmap_app, elem_of_app. csimpl.
        rewrite list_elem_of_singleton.
        destruct (decide (n = c_product_name c)) as [->|Hne]; [tauto |]. tauto.
Qed.

Lemma well_formed_0_products rows cs n :
  Forall2 well_formed_0 rows cs ->
  n ∈ c_product_name <$> cs <-> exists r, r ∈ rows /\ r !! "product" = Some n.
Proof.
  induction 1 as [|r c rows cs (Hp & _) _ IH]; csimpl.
  - rewrite elem_of_nil. split; [done |]. intros (r & Hr & _). by apply elem_of_nil in Hr.
  - rewrite elem_of_cons, IH. split.
    + intros [->|(r' & Hr' & Hn)].
      * exists r. split; [apply list_elem_of_here | done].
      * exists r'. split; [by apply list_elem_of_further | done].
    + intros (r' & Hr' & Hn). apply elem_of_cons in Hr' as [->|Hr'].
      * left. congruence.
      * right. by exists r'.
Qed.

(** X9: on well-formed rows with quantities in the signed 64-bit range,
    [process_shipping_data_0] creates one product row for each distinct
    product name of the rows that the table did not have, and no other:
    the new rows have distinct names, and a name is among them exactly
    when some row has it as [product] and no product row had it before. *)
Theorem process_shipping_data_0_new_products
    (rows : list row) (cs : list canonical) (st : state) :
  Forall2 well_formed_0 rows cs ->
  Forall (fun c => int64 (c_quantity c)) cs ->
  exists new,
    product (pending (process_shipping_data_0 rows st).1)
    = product (pending st) ++ new /\
    NoDup (p_name <$> new) /\
    forall n, n ∈ p_name <$> new <->
              (exists r, r ∈ rows /\ r !! "product" = Some n) /\
              n ∉ p_name <$> product (pending st).
Proof.
  intros Hrows _. rewrite process_shipping_data_0_eq.
  rewrite (read_rows_0_well_formed _ _ Hrows). simpl.
  destruct (store_all_new_products cs (pending st)) as (new & Hnew & Hnd & Hin).
  exists new. split; [done |]. split; [done |].
  intros n. by rewrite Hin, (well_formed_0_products _ _ _ Hrows).
Qed.

Lemma process_shipping_data_0_new_products_witness :
  exists new,
    product (pending (process_shipping_data_0
                        [widget_row; widget_row]
                        (State empty_db (Database [ProductRow 4 "Bolt"] []) [])).1)
    = [ProductRow 4 "Bolt"] ++ new /\
    NoDup (p_name <$> new).
Proof.
  destruct (process_shipping_data_0_new_products
              [widget_row; widget_row]
              [Canonical "Widget" 5 "W1" "S1"; Canonical "Widget" 5 "W1" "S1"]
              (State empty_db (Database [ProductRow 4 "Bolt"] []) []))
    as (new & Hnew & Hnd & _).
  - repeat apply Forall2_cons_2; try apply Forall2_nil_2.
    + repeat split; try reflexivity. exists "5". split; reflexivity.
    + repeat split; try reflexivity. exists "5". split; reflexivity.
  - solve_int64.
  - by exists new.
Defined.

(** ** More on the join *)

Lemma load_shipment_info_Some rows acc shipment_info s :
  load_shipment_info rows acc = Ok shipment_info ->
  is_Some (dict_get s shipment_info) <->
  is_Some (dict_get s acc) \/
  Exists (fun r => r !! "shipment_identifier" = Some s) rows.
Proof.
  revert acc. induction rows as [|r rows IH]; intros acc; simpl.
  - intros [= ->]. rewrite Exists_nil. tauto.
  - unfold getitem.
    destruct (r !! "shipment_identifier") as [s'|] eqn:Hs; simpl; [| done].
    destruct (r !! "origin_warehouse") as [o|]; simpl; [| done].
    destruct (r !! "destination_store") as [d|]; simpl; [| done].
    intros Hload. rewrite (IH _ Hload), Exists_cons, Hs.
    destruct (decide (s' = s)) as [->|Hne].
    + rewrite dict_get_set_eq. split; [tauto |]. intros _. left. by eexists.
    + rewrite dict_get_set_ne by done.
      split; [tauto |]. intros [?|[?|?]]; [tauto | congruence | tauto].
Qed.

Lemma increment_keys_elem s' p acc (s : string) :
  s ∈ (increment s' p acc).*1 <-> s ∈ acc.*1 \/ s = s'.
Proof.
  unfold increment. rewrite dict_set_keys.
  destruct (dict_get s' acc) as [products|] eqn:Hget.
  - split; [tauto |]. intros [?| ->]; [done |].
    destruct (decide (s' ∈ acc.*1)) as [|Hn]; [done |].
    apply dict_get_None in Hn. congruence.
  - rewrite elem_of_app, list_elem_of_singleton. tauto.
Qed.

Lemma count_products_keys rows acc product_counts (s : string) :
  count_products rows acc = Ok product_counts ->
  s ∈ product_counts.*1 <->
  s ∈ acc.*1 \/ Exists (fun r => r !! "shipment_identifier" = Some s) rows.
Proof.
  revert acc. induction rows as [|r rows IH]; intros acc.
  - intros [= ->]. rewrite Exists_nil. tauto.
  - intros Hc. apply count_products_Ok_inv in Hc as (s' & p & [Hs Hp] & Hc).
    rewrite (IH _ Hc), increment_keys_elem, Exists_cons, Hs.
    split; [intros [[?| ->]|?]; tauto |].
    intros [?|[[= ->]|?]]; tauto.
Qed.

(** X10: on rows that have their fields, the join prints one warning for
    each distinct shipment identifier of the fact rows that no location row
    has, and nothing else: the identifiers warned about are distinct, and
    an identifier is among them exactly when some fact row has it and no
    location row has it. *)
Theorem join_warnings (rows_1 rows_2 : list row) (st : state) :
  Forall (has_fields fields_1) rows_1 ->
  Forall (has_fields fields_2) rows_2 ->
  exists ids,
    stdout (process_shipping_data_1_and_2 rows_1 rows_2 st).1
    = stdout st ++ (warning <$> ids) /\
    NoDup ids /\
    forall s, s ∈ ids <->
              Exists (fun r => r !! "shipment_identifier" = Some s) rows_1 /\
              Forall (fun r => r !! "shipment_identifier" ≠ Some s) rows_2.
Proof.
  intros H1 H2.
  assert (exists shipment_info, load_shipment_info rows_2 [] = Ok shipment_info)
    as [shipment_info Hload].
  { apply load_shipment_info_Ok. eapply Forall_impl; [exact H2 |].
    by intros r ?%has_fields_2. }
  assert (exists pc, count_products rows_1 [] = Ok pc) as [pc Hc].
  { apply count_products_Ok. eapply Forall_impl; [exact H1 |].
    by intros r ?%has_fields_1. }
  assert (counts_wf []) as Hwf0 by (split; [apply NoDup_nil_2 | apply Forall_nil_2]).
  destruct (count_products_wf _ _ _ Hc Hwf0) as [Hnd _].
  exists (missing shipment_info pc).
  rewrite process_shipping_data_1_and_2_eq, Hload, Hc, insert_records_eq. simpl.
  split; [done |]. split; [by apply NoDup_filter |].
  intros s. unfold missing. rewrite list_elem_of_filter.
  rewrite (count_products_keys _ _ _ s Hc). csimpl. rewrite elem_of_nil.
  pose proof (load_shipment_info_Some _ _ _ s Hload) as Hsome. simpl in Hsome.
  split.
  - intros [Hnone [[]|Hex]]. split; [done |].
    apply Forall_forall. intros r Hr Hrs.
    assert (is_Some (dict_get s shipment_info)) as [i Hi].
    { apply Hsome. right. apply Exists_exists. by exists r. }
    congruence.
  - intros [Hex Hall]. split; [| by right].
    destruct (dict_get s shipment_info) as [i|] eqn:Hget; [| done].
    exfalso. destruct (proj1 Hsome) as [[? [=]]|Hex2]; [by eexists |].
    apply Exists_exists in Hex2 as (r & Hr & Hrs).
    rewrite Forall_forall in Hall. by apply (Hall r Hr).
Qed.

Lemma join_warnings_witness :
  exists ids,
    stdout (process_shipping_data_1_and_2
              [fact "Z9" "Nut"; fact "A1" "Bolt"; fact "Z9" "Bolt"]
              [location "A1" "W2" "S2"] (connect empty_db)).1
    = [] ++ (warning <$> ids) /\
    NoDup ids.
Proof.
  destruct (join_warnings [fact "Z9" "Nut"; fact "A1" "Bolt"; fact "Z9" "Bolt"]
              [location "A1" "W2" "S2"] (connect empty_db))
    as (ids & Hout & Hnd & _).
  - solve_fields.
  - solve_fields.
  - by exists ids.
Defined.

(** ** The order of emission *)

Lemma count_products_app rows rows' acc :
  count_products (rows ++ rows') acc
  = result_bind (count_products rows acc) (count_products rows').
Proof.
  revert acc. induction rows as [|r rows IH]; intros acc; simpl; [done |].
  unfold getitem.
  destruct (r !! "shipment_identifier"); simpl; [| done].
  destruct (r !! "product"); simpl; [| done].
  apply IH.
Qed.

Lemma counts_extend_refl pc : counts_extend pc pc.
Proof. split; [done |]. intros s products Hget. by exists products. Qed.

Lemma counts_extend_trans pc1 pc2 pc3 :
  counts_extend pc1 pc2 -> counts_extend pc2 pc3 -> counts_extend pc1 pc3.
Proof.
  intros [Hk Hp] [Hk' Hp']. split; [by etrans |].
  intros s products Hget.
  destruct (Hp _ _ Hget) as (products2 & Hget2 & Hpre).
  destruct (Hp' _ _ Hget2) as (products3 & Hget3 & Hpre').
  exists products3. split; [done | by etrans].
Qed.

Lemma increment_extend s' p acc : counts_extend acc (increment s' p acc).
Proof.
  unfold increment. split.
  - rewrite dict_set_keys. destruct (dict_get s' acc); [done |].
    by apply prefix_app_r.
  - intros s products Hget. destruct (decide (s' = s)) as [->|Hne].
    + rewrite dict_get_set_eq, Hget. simpl. eexists. split; [done |].
      rewrite dict_set_keys. destruct (dict_get p products); [done |].
      by apply prefix_app_r.
    + rewrite dict_get_set_ne by done. by exists products.
Qed.

Lemma count_products_extend rows acc product_counts :
  count_products rows acc = Ok product_counts -> counts_extend acc product_counts.
Proof.
  revert acc. induction rows as [|r rows IH]; intros acc.
  - intros [= ->]. apply counts_extend_refl.
  - intros Hc. apply count_products_Ok_inv in Hc as (s & p & _ & Hc).
    eapply counts_extend_trans; [apply increment_extend | by apply IH].
Qed.

(** X12: shipments and products are emitted in the order in which the fact
    rows first show them.  Whatever fact rows follow, the shipment
    identifiers counted so far stay where they are in [product_counts], and
    so do the products counted so far under each of them: later rows only
    add identifiers and products at the end (and raise quantities). *)
Theorem count_products_first_seen_order
    (rows rows' : list row) (product_counts' : list (string * list (string * Z))) :
  count_products (rows ++ rows') [] = Ok product_counts' ->
  exists product_counts,
    count_products rows [] = Ok product_counts /\
    product_counts.*1 `prefix_of` product_counts'.*1 /\
    forall s products,
      dict_get s product_counts = Some products ->
      exists products', dict_get s product_counts' = Some products' /\
                        products.*1 `prefix_of` products'.*1.
Proof.
  rewrite count_products_app.
  destruct (count_products rows []) as [pc|e]; simpl; [| done].
  intros Hc. exists pc. split; [done |].
  by apply (count_products_extend rows').
Qed.

Lemma count_products_first_seen_order_witness :
  exists product_counts,
    count_products [fact "B2" "Nut"; fact "A1" "Bolt"] [] = Ok product_counts /\
    product_counts.*1
      `prefix_of` [("B2", [("Nut", 2%Z); ("Bolt", 1%Z)]); ("A1", [("Bolt", 1%Z)]);
                   ("C3", [("Nut", 1%Z)])].*1.
Proof.
  destruct (count_products_first_seen_order
              [fact "B2" "Nut"; fact "A1" "Bolt"]
              [fact "C3" "Nut"; fact "B2" "Bolt"; fact "B2" "Nut"]
              [("B2", [("Nut", 2%Z); ("Bolt", 1%Z)]); ("A1", [("Bolt", 1%Z)]);
               ("C3", [("Nut", 1%Z)])])
    as (pc & Hc & Hpre & _).
  - reflexivity.
  - by exists pc.
Defined.

(** ** The products the join creates *)

Lemma emitted_names rows_1 rows_2 shipment_info product_counts n :
  load_shipment_info rows_2 [] = Ok shipment_info ->
  count_products rows_1 [] = Ok product_counts ->
  n ∈ c_product_name <$> emitted shipment_info product_counts <->
  exists s, Exists (carries s n) rows_1 /\
            Exists (fun r => r !! "shipment_identifier" = Some s) rows_2.
Proof.
  intros Hload Hc.
  assert (counts_wf []) as Hwf0 by (split; [apply NoDup_nil_2 | apply Forall_nil_2]).
  pose proof (count_products_wf _ _ _ Hc Hwf0) as Hwf.
  assert (forall s, is_Some (dict_get s shipment_info) <->
                    Exists (fun r => r !! "shipment_identifier" = Some s) rows_2)
    as Hsome.
  { intros s. rewrite (load_shipment_info_Some _ _ _ s Hload). simpl.
    split; [intros [[? [=]]|?]; done | by right]. }
  rewrite list_elem_of_fmap, emitted_entries. split.
  - intros (c & -> & Hin).
    apply list_elem_of_omap in Hin as ([[s p] q] & Hin & Hf).
    destruct (dict_get s shipment_info) as [i|] eqn:Hget; [| done].
    simpl in Hf. injection Hf as <-. simpl.
    exists s. split; [| apply Hsome; by eexists].
    apply (elem_of_entries _ _ _ _ Hwf) in Hin.
    rewrite (count_products_entry _ _ _ s p Hc) in Hin.
    apply occurrences_pos. pose proof (occurrences_nonneg s p rows_1).
    destruct (decide (occurrences s p rows_1 = 0%Z)); [done | lia].
  - intros (s & Hex & Hloc). apply Hsome in Hloc as [i Hi].
    exists (Canonical n (occurrences s n rows_1) (info_origin i) (info_destination i)).
    split; [done |]. apply list_elem_of_omap.
    exists (s, n, occurrences s n rows_1). split; [| by rewrite Hi].
    apply (elem_of_entries _ _ _ _ Hwf).
    rewrite (count_products_entry _ _ _ s n Hc). simpl.
    apply occurrences_pos in Hex.
    rewrite decide_False by lia. f_equal; lia.
Qed.

(** X13: on rows that have their fields, the join creates one product row
    for each distinct product name that the table did not have and that
    some fact row carries under a shipment identifier with a location row,
    and no other.  A product seen only under shipments without location is
    not created. *)
Theorem join_new_products (rows_1 rows_2 : list row) (st : state) :
  Forall (has_fields fields_1) rows_1 ->
  Forall (has_fields fields_2) rows_2 ->
  exists new,
    product (pending (process_shipping_data_1_and_2 rows_1 rows_2 st).1)
    = product (pending st) ++ new /\
    NoDup (p_name <$> new) /\
    forall n, n ∈ p_name <$> new <->
              (exists s, Exists (carries s n) rows_1 /\
                         Exists (fun r => r !! "shipment_identifier" = Some s) rows_2) /\
              n ∉ p_name <$> product (pending st).
Proof.
  intros H1 H2.
  assert (exists shipment_info, load_shipment_info rows_2 [] = Ok shipment_info)
    as [shipment_info Hload].
  { apply load_shipment_info_Ok. eapply Forall_impl; [exact H2 |].
    by intros r ?%has_fields_2. }
  assert (exists pc, count_products rows_1 [] = Ok pc) as [pc Hc].
  { apply count_products_Ok. eapply Forall_impl; [exact H1 |].
    by intros r ?%has_fields_1. }
  rewrite process_shipping_data_1_and_2_eq, Hload, Hc, insert_records_eq. simpl.
  destruct (store_all_new_products (emitted shipment_info pc) (pending st))
    as (new & Hnew & Hnd & Hin).
  exists new. split; [done |]. split; [done |].
  intros n. by rewrite Hin, (emitted_names _ _ _ _ _ Hload Hc).
Qed.

Lemma join_new_products_witness :
  exists new,
    product (pending (process_shipping_data_1_and_2
                        [fact "Z9" "Nut"; fact "A1" "Bolt"; fact "A1" "Bolt"]
                        [location "A1" "W2" "S2"] (connect empty_db)).1)
    = [] ++ new /\
    NoDup (p_name <$> new) /\
    ("Nut" ∈ p_name <$> new <->
     (exists s, Exists (carries s "Nut")
                       [fact "Z9" "Nut"; fact "A1" "Bolt"; fact "A1" "Bolt"] /\
                Exists (fun r => r !! "shipment_identifier" = Some s)
                       [location "A1" "W2" "S2"]) /\
     "Nut" ∉ p_name <$> @nil product_row).
Proof.
  destruct (join_new_products
              [fact "Z9" "Nut"; fact "A1" "Bolt"; fact "A1" "Bolt"]
              [location "A1" "W2" "S2"] (connect empty_db))
    as (new & Hnew & Hnd & Hin).
  - solve_fields.
  - solve_fields.
  - exists new. split; [exact Hnew |]. split; [exact Hnd |]. apply Hin.
Defined.

(** ** What a failed run reports *)

(** X14: when a row of shipping_data_0 lacks a field or has a quantity
    that is no numeral, the rows before it being well formed with
    quantities in the signed 64-bit range, [main] reports the exception of
    that row after the first progress line and raises it; the rows
    inserted before it are rolled back, and the two tables of the join are
    not read (they do not matter to the outcome). *)
Theorem main_fails_on_shipping_data_0
    (good rest rows_1 rows_2 : list row) (cs : list canonical) (bad : row)
    (e : exception) (file : database) :
  Forall2 well_formed_0 good cs ->
  Forall (fun c => int64 (c_quantity c)) cs ->
  row_0_fields bad = Raise e ->
  main (good ++ bad :: rest) rows_1 rows_2 file
  = (State file file ["Processing shipping_data_0.csv..."; "Error: " +:+ str e],
     Raise e).
Proof.
  intros Hgood _ Hbad.
  by rewrite main_eq, main_try_eq, (read_rows_0_stops _ _ _ _ _ Hgood Hbad).
Qed.

Lemma main_fails_on_shipping_data_0_witness :
  main ([widget_row] ++ row_of [("product", "Gadget")] :: [widget_row])
       [fact "A1" "Bolt"] [row_of [("shipment_identifier", "A1")]] empty_db
  = (State empty_db empty_db
           ["Processing shipping_data_0.csv..."; "Error: 'product_quantity'"],
     Raise (KeyError "product_quantity")).
Proof.
  apply (main_fails_on_shipping_data_0
           [widget_row] [widget_row] [fact "A1" "Bolt"]
           [row_of [("shipment_identifier", "A1")]]
           [Canonical "Widget" 5 "W1" "S1"] (row_of [("product", "Gadget")])
           (KeyError "product_quantity") empty_db).
  - repeat apply Forall2_cons_2; try apply Forall2_nil_2.
    repeat split; try reflexivity. exists "5". split; reflexivity.
  - solve_int64.
  - reflexivity.
Defined.

(** X15: when shipping_data_0 is well formed, with quantities in the
    signed 64-bit range, and a row of the join lacks a field of its family
    (the field is not a key of the row, as when the header of the file has
    no such column), [main] reports a [KeyError] after the two progress
    lines and raises it; everything inserted from shipping_data_0 is
    rolled back, so the database file is what it was. *)
Theorem main_fails_on_join
    (rows_0 rows_1 rows_2 : list row) (cs : list canonical) (file : database) :
  Forall2 well_formed_0 rows_0 cs ->
  Forall (fun c => int64 (c_quantity c)) cs ->
  Exists (lacks_field fields_1) rows_1 \/ Exists (lacks_field fields_2) rows_2 ->
  exists key,
    (key ∈ fields_1 \/ key ∈ fields_2) /\
    main rows_0 rows_1 rows_2 file
    = (State file file
             ["Processing shipping_data_0.csv...";
              "Processing shipping_data_1.csv with shipping_data_2.csv...";
              "Error: " +:+ repr key],
       Raise (KeyError key)).
Proof.
  intros H0 _ Hbad. rewrite main_eq, main_try_eq, (read_rows_0_well_formed _ _ H0).
  simpl.
  destruct (all_or_some fields_2 rows_2) as [H2|H2].
  - assert (Exists (lacks_field fields_1) rows_1) as H1.
    { destruct Hbad as [|Hbad]; [done |]. exfalso.
      apply Exists_exists in Hbad as (r & Hin & Hr).
      rewrite Forall_forall in H2. by apply (has_not_lacks _ _ (H2 r Hin)). }
    assert (exists shipment_info, load_shipment_info rows_2 [] = Ok shipment_info)
      as [shipment_info ->].
    { apply load_shipment_info_Ok. eapply Forall_impl; [exact H2 |].
      by intros r ?%has_fields_2. }
    destruct (count_products_Raise rows_1 [] H1) as (key & Hkey & ->).
    exists key. split; [by left | done].
  - destruct (load_shipment_info_Raise rows_2 [] H2) as (key & Hkey & ->).
    exists key. split; [by right | done].
Qed.

Lemma main_fails_on_join_witness :
  exists key,
    main [widget_row] [fact "A1" "Bolt"] [row_of [("shipment_identifier", "A1")]]
         empty_db
    = (State empty_db empty_db
             ["Processing shipping_data_0.csv...";
              "Processing shipping_data_1.csv with shipping_data_2.csv...";
              "Error: " +:+ repr key],
       Raise (KeyError key)).
Proof.
  destruct (main_fails_on_join
              [widget_row] [fact "A1" "Bolt"]
              [row_of [("shipment_identifier", "A1")]]
              [Canonical "Widget" 5 "W1" "S1"] empty_db)
    as (key & _ & Hmain).
  - repeat apply Forall2_cons_2; try apply Forall2_nil_2.
    repeat split; try reflexivity. exists "5". split; reflexivity.
  - solve_int64.
  - right. apply Exists_cons_hd. apply Exists_cons_tl, Exists_cons_hd. reflexivity.
  - by exists key.
Defined.

(** ** Running twice *)

Lemma store_all_known cs db :
  Forall (fun c => is_Some (select_id (c_product_name c) (product db))) cs ->
  product (store_all cs db) = product db /\
  shipment (store_all cs db) = shipment db ++ (resolve (product db) <$> cs).
Proof.
  revert db. induction cs as [|c cs IH]; intros db Hall.
  - simpl. by rewrite app_nil_r.
  - apply Forall_cons in Hall as [[i Hi] Hall].
    change (store_all (c :: cs) db) with (store_all cs (store db c)).
    assert (store db c
            = Database (product db) (shipment db ++ [resolve (product db) c])) as ->.
    { unfold store, resolve. by rewrite Hi. }
    destruct (IH (Database (product db) (shipment db ++ [resolve (product db) c])))
      as [Hp Hs]; [done |].
    split; [done |]. rewrite Hs. simpl. by rewrite <- app_assoc.
Qed.

Lemma main_committed rows_0 rows_1 rows_2 cs shipment_info product_counts file :
  Forall2 well_formed_0 rows_0 cs ->
  load_shipment_info rows_2 [] = Ok shipment_info ->
  count_products rows_1 [] = Ok product_counts ->
  committed (main rows_0 rows_1 rows_2 file).1
  = store_all (cs ++ emitted shipment_info product_counts) file.
Proof.
  intros H0 Hload Hc.
  rewrite main_eq, main_try_eq, (read_rows_0_well_formed _ _ H0), Hload, Hc.
  simpl. by rewrite store_all_app.
Qed.

(** X16: a second run on the same well-formed inputs creates no product:
    the product table after it is the product table after the first run,
    and the shipment rows that the first run appended are appended once
    more, with the same product ids (the program does not recognise
    shipments it has already stored). *)
Theorem main_rerun (rows_0 rows_1 rows_2 : list row) (cs : list canonical)
    (file : database) :
  Forall2 well_formed_0 rows_0 cs ->
  Forall (has_fields fields_1) rows_1 ->
  Forall (has_fields fields_2) rows_2 ->
  let once := committed (main rows_0 rows_1 rows_2 file).1 in
  let twice := committed (main rows_0 rows_1 rows_2 once).1 in
  product twice = product once /\
  exists new,
    shipment once = shipment file ++ new /\
    shipment twice = shipment file ++ new ++ new.
Proof.
  intros H0 H1 H2 once twice.
  assert (exists shipment_info, load_shipment_info rows_2 [] = Ok shipment_info)
    as [shipment_info Hload].
  { apply load_shipment_info_Ok. eapply Forall_impl; [exact H2 |].
    by intros r ?%has_fields_2. }
  assert (exists pc, count_products rows_1 [] = Ok pc) as [pc Hc].
  { apply count_products_Ok. eapply Forall_impl; [exact H1 |].
    by intros r ?%has_fields_1. }
  subst twice.
  rewrite (main_committed _ _ _ _ _ _ once H0 Hload Hc).
  subst once.
  rewrite (main_committed _ _ _ _ _ _ file H0 Hload Hc).
  destruct (store_all_shipment (cs ++ emitted shipment_info pc) file) as [Hsome Hs].
  destruct (store_all_known _ _ Hsome) as [Hp Hs'].
  split; [done |]. eexists. split; [exact Hs |].
  by rewrite Hs', Hs, <- app_assoc.
Qed.

Lemma main_rerun_witness :
  let once := committed (main [widget_row] [fact "A1" "Bolt"; fact "A1" "Bolt"]
                              [location "A1" "W2" "S2"] empty_db).1 in
  let twice := committed (main [widget_row] [fact "A1" "Bolt"; fact "A1" "Bolt"]
                               [location "A1" "W2" "S2"] once).1 in
  once = Database [ProductRow 1 "Widget"; ProductRow 2 "Bolt"]
                  [ShipmentRow 1 5 "W1" "S1"; ShipmentRow 2 2 "W2" "S2"] /\
  product twice = product once.
Proof.
  intros once twice. split; [reflexivity |].
  apply (main_rerun [widget_row] [fact "A1" "Bolt"; fact "A1" "Bolt"]
           [location "A1" "W2" "S2"] [Canonical "Widget" 5 "W1" "S1"] empty_db).
  - repeat apply Forall2_cons_2; try apply Forall2_nil_2.
    repeat split; try reflexivity. exists "5". split; reflexivity.
  - solve_fields.
  - solve_fields.
Defined.
